(** * The filesystem facade of the XRootD client (xrootd/client/filesystem.go)

    The facade turns each filesystem operation into one exchange with the
    transport behind [*Client] and maps the answer to the value it returns.
    The development embeds the eleven methods of [fileSystem] and
    [Client.FS] as state-passing functions over a world that holds the
    [fileSystem] objects, the clients they point to and the record of what
    went over the wire. *)

From Stdlib Require Import ZArith List String.
From Stdlib Require Import Lia.
From Stdlib Require QArith.
Import ListNotations.

Local Open Scope string_scope.
Local Open Scope list_scope.

(** ** Go values *)

(** The zero value of a Go type: what [var x T] and [T{}] denote. *)
Class Zero (A : Type) := zero : A.

#[global] Instance Z_Zero : Zero Z := 0%Z.
#[global] Instance string_Zero : Zero string := "".

(** A Go slice [[]A]: [nil], or a sequence of elements in order. *)
Definition slice (A : Type) : Type := option (list A).

#[global] Instance slice_Zero (A : Type) : Zero (slice A) := None.

(** The values of Go's [error] interface that the layers below the facade
    produce: the two errors of package [context], and failures of the
    protocol or of the connection (spec, section 7). *)
Inductive GoError : Type :=
| context_Canceled
| context_DeadlineExceeded
| ServerError (code : Z) (message : string)
| ConnectionError (message : string).

(** [error]: [nil] is [None]. *)
Definition error : Type := option GoError.

(** An error that reports that the context of the call fired. *)
Definition is_cancellation (e : GoError) : bool :=
  match e with
  | context_Canceled | context_DeadlineExceeded => true
  | ServerError _ _ | ConnectionError _ => false
  end.

(** ** The packages the facade imports

    Of each package the embedding holds what filesystem.go names. A struct
    is a record with the fields that the composite literals and selectors
    of filesystem.go use; a field left out of a composite literal holds its
    zero value. Declarations whose text is not part of the sources (the
    entity types of [xrdfs], the option constants, the two request
    constructors) are members of a class, so that every statement holds
    for whatever they are. *)

Module xrdfs.

(** [xrdfs.OpenMode] and [xrdfs.OpenOptions]: integer-backed bit-sets. *)
Definition OpenMode : Type := Z.
Definition OpenOptions : Type := Z.

(** Modelled from the spec: the entity types of package xrdfs, which the
    sources do not declare. [EntryStat] is the snapshot of one entry,
    [VirtualFSStat] the aggregate figures of a path prefix, [FileHandle]
    the handle the server assigns, [FileCompression] the compression
    descriptor. Each comes with its zero value. *)
Class Decls : Type := {
  EntryStat : Type;
  EntryStat_zero : Zero EntryStat;
  VirtualFSStat : Type;
  VirtualFSStat_zero : Zero VirtualFSStat;
  FileHandle : Type;
  FileHandle_zero : Zero FileHandle;
  FileCompression : Type;
  FileCompression_zero : Zero FileCompression
}.

#[global] Existing Instances
  EntryStat_zero VirtualFSStat_zero FileHandle_zero FileCompression_zero.

End xrdfs.

Module dirlist.

(** Modelled from the spec: [dirlist.Request] and [dirlist.NewRequest],
    which build the directory-listing request for a path; their text is
    not part of the sources. *)
Class Decls : Type := {
  Request : Type;
  NewRequest : string -> Request
}.

(** [dirlist.Response]: the facade reads [Entries]. *)
Record Response `{xrdfs.Decls} : Type := {
  Entries : slice xrdfs.EntryStat
}.

#[global] Instance Response_Zero `{xrdfs.Decls} : Zero Response :=
  {| Entries := zero |}.

End dirlist.

Module open.

(** Modelled from the spec: [open.Request] and [open.NewRequest], which
    build the open request from a path, a mode and options; their text is
    not part of the sources. *)
Class Decls : Type := {
  Request : Type;
  NewRequest : string -> xrdfs.OpenMode -> xrdfs.OpenOptions -> Request
}.

(** [open.Response]: the facade reads [FileHandle], [Compression] and
    [Stat]. *)
Record Response `{xrdfs.Decls} : Type := {
  FileHandle : xrdfs.FileHandle;
  Compression : xrdfs.FileCompression;
  Stat : xrdfs.EntryStat
}.

#[global] Instance Response_Zero `{xrdfs.Decls} : Zero Response :=
  {| FileHandle := zero; Compression := zero; Stat := zero |}.

End open.

Module rm.

(** [rm.Request{Path: path}] *)
Record Request : Type := {
  Path : string
}.

End rm.

Module truncate.

(** [truncate.Request{Path: path, Size: size}], [size] an [int64]. *)
Record Request : Type := {
  Path : string;
  Size : Z
}.

End truncate.

Module stat.

(** Modelled from the spec: [stat.OptionsVFS], the option bit that asks for
    the virtual-filesystem variant; its value is not part of the
    sources. Options are an integer-backed bit-set. *)
Class Decls : Type := {
  OptionsVFS : Z
}.

(** [stat.Request{Path: path}] and
    [stat.Request{Path: path, Options: stat.OptionsVFS}]. *)
Record Request : Type := {
  Path : string;
  Options : Z
}.

(** [stat.DefaultResponse] embeds an [xrdfs.EntryStat], read as
    [resp.EntryStat]. *)
Record DefaultResponse `{xrdfs.Decls} : Type := {
  EntryStat : xrdfs.EntryStat
}.

(** [stat.VirtualFSResponse] embeds an [xrdfs.VirtualFSStat], read as
    [resp.VirtualFSStat]. *)
Record VirtualFSResponse `{xrdfs.Decls} : Type := {
  VirtualFSStat : xrdfs.VirtualFSStat
}.

#[global] Instance DefaultResponse_Zero `{xrdfs.Decls} : Zero DefaultResponse :=
  {| EntryStat := zero |}.

#[global] Instance VirtualFSResponse_Zero `{xrdfs.Decls} : Zero VirtualFSResponse :=
  {| VirtualFSStat := zero |}.

End stat.

Module mkdir.

(** Modelled from the spec: [mkdir.OptionsMakePath], the make-path option
    bit; its value is not part of the sources. Options are an
    integer-backed bit-set. *)
Class Decls : Type := {
  OptionsMakePath : Z
}.

(** [mkdir.Request{Path: path, Mode: perm}] and
    [mkdir.Request{Path: path, Mode: perm, Options: mkdir.OptionsMakePath}]. *)
Record Request : Type := {
  Path : string;
  Mode : xrdfs.OpenMode;
  Options : Z
}.

End mkdir.

Module rmdir.

(** [rmdir.Request{Path: path}] *)
Record Request : Type := {
  Path : string
}.

End rmdir.

Module mv.

(** [mv.Request{OldPath: oldpath, NewPath: newpath}] *)
Record Request : Type := {
  OldPath : string;
  NewPath : string
}.

End mv.

Module chmod.

(** [chmod.Request{Path: path, Mode: perm}] *)
Record Request : Type := {
  Path : string;
  Mode : xrdfs.OpenMode
}.

End chmod.

(** The declarations the sources leave out, in one bundle. *)
Class Packages : Type := {
  pkg_xrdfs :: xrdfs.Decls;
  pkg_dirlist :: dirlist.Decls;
  pkg_open :: open.Decls;
  pkg_stat :: stat.Decls;
  pkg_mkdir :: mkdir.Decls
}.

(** ** Requests, sinks and the transport *)

(** The requests filesystem.go hands to the transport: a value of the
    interface [xrdproto.Request] is one of these. *)
Inductive Request `{Packages} : Type :=
| ReqDirlist (r : dirlist.Request)
| ReqOpen (r : open.Request)
| ReqRm (r : rm.Request)
| ReqTruncate (r : truncate.Request)
| ReqStat (r : stat.Request)
| ReqMkdir (r : mkdir.Request)
| ReqRmdir (r : rmdir.Request)
| ReqMv (r : mv.Request)
| ReqChmod (r : chmod.Request).

(** The types of the response values that filesystem.go passes to
    [Send] by address. *)
Inductive SinkKind : Type :=
| DirlistSink
| OpenSink
| StatDefaultSink
| StatVirtualFSSink.

(** The response behind a sink of each kind. [Send] writes into the value
    it is given; the value keeps its type. *)
Definition Sink `{Packages} (k : SinkKind) : Type :=
  match k with
  | DirlistSink => dirlist.Response
  | OpenSink => open.Response
  | StatDefaultSink => stat.DefaultResponse
  | StatVirtualFSSink => stat.VirtualFSResponse
  end.

(** Modelled from the spec: the transport behind [*Client], whose text is
    not part of the sources (spec, section 6). [Send_answer] is what
    [Send(ctx, resp, req)] does with a request: the response value after the
    call, the error, and the next state of the client. [call_answer] is
    the same for [call(ctx, req)], whose first result is the raw
    acknowledgement. Nothing is assumed of either: a transport may write
    into the response value and still report an error. *)
Class Transport `{Packages} : Type := {
  context_Context : Type;
  ClientState : Type;
  Ack : Type;
  Send_answer : forall k : SinkKind,
    context_Context -> Sink k -> Request -> ClientState ->
    (Sink k * error) * ClientState;
  call_answer :
    context_Context -> Request -> ClientState ->
    (Ack * error) * ClientState
}.

(** A [*Client] and a [*fileSystem]: addresses of objects. *)
Definition ClientPtr : Type := nat.
Definition fileSystemPtr : Type := nat.

(** [type fileSystem struct { c *Client }] *)
Record fileSystem : Type := {
  c : ClientPtr
}.

(** Modelled from the spec: the struct [file] behind the [xrdfs.File] that
    Open returns, whose declaration is not part of the sources. Open fills
    its four fields in this order: the owning file system, the handle, the
    compression descriptor and the stat snapshot. *)
Record file `{Packages} : Type := {
  file_fs : fileSystemPtr;
  file_handle : xrdfs.FileHandle;
  file_compression : xrdfs.FileCompression;
  file_info : xrdfs.EntryStat
}.

(** One use of a transport primitive, with what came back: through [Send]
    with a sink of kind [k], or through [call]. *)
Inductive Exchange `{Transport} : Type :=
| Sent (cli : ClientPtr) (ctx : context_Context) (k : SinkKind)
       (req : Request) (resp : Sink k) (err : error)
| Called (cli : ClientPtr) (ctx : context_Context)
         (req : Request) (ack : Ack) (err : error).

(** The world the facade runs in: the [fileSystem] objects by address and
    the next free address, the state behind each client, and the exchanges
    so far, oldest first. *)
Record World `{Transport} : Type := {
  objects : fileSystemPtr -> fileSystem;
  next_object : fileSystemPtr;
  clients : ClientPtr -> ClientState;
  wire : list Exchange
}.

(** Store [v] at address [a]. *)
Definition store {A : Type} (m : nat -> A) (a : nat) (v : A) : nat -> A :=
  fun b => if Nat.eqb b a then v else m b.

(** A computation over the world that returns an [A]. *)
Definition M `{Transport} (A : Type) : Type := World -> A * World.

Definition ret `{Transport} {A : Type} (a : A) : M A :=
  fun w => (a, w).

Definition bind `{Transport} {A B : Type} (m : M A) (k : A -> M B) : M B :=
  fun w => let (a, w') := m w in k a w'.

Declare Scope go_scope.
Delimit Scope go_scope with go.
Notation "x <- m ;; k" := (bind m (fun x => k))
  (at level 61, m at next level, right associativity) : go_scope.
Notation "' p <- m ;; k" := (bind m (fun x => let p := x in k))
  (at level 61, p pattern, m at next level, right associativity) : go_scope.

(** The value and the final world of a run. *)
Definition eval `{Transport} {A : Type} (m : M A) (w : World) : A := fst (m w).
Definition exec `{Transport} {A : Type} (m : M A) (w : World) : World := snd (m w).

(** ** The client and the facade *)

Section Facade.

Context {P : Packages} {T : Transport}.

Local Open Scope go_scope.

(** The world after the client [cli] made the exchange [x] and moved to the
    state [st]: nothing else changes. *)
Definition exchanged (w : World) (cli : ClientPtr) (st : ClientState)
    (x : Exchange) : World :=
  {| objects := objects w;
     next_object := next_object w;
     clients := store (clients w) cli st;
     wire := wire w ++ [x] |}.

(** Modelled from the spec: [Client.Send], whose text is not part of the
    sources: "send one request and decode its answer directly into a typed
    response value". One exchange: the transport answers from the state of
    the client [cli], and the exchange goes on record. *)
Definition Client_Send (cli : ClientPtr) (ctx : context_Context)
    (k : SinkKind) (resp : Sink k) (req : Request) : M (Sink k * error) :=
  fun w =>
    let '((resp', err), st) := Send_answer k ctx resp req (clients w cli) in
    ((resp', err), exchanged w cli st (Sent cli ctx k req resp' err)).

(** Modelled from the spec: [Client.call], whose text is not part of the
    sources: "send one request, return the raw/decoded acknowledgement". *)
Definition Client_call (cli : ClientPtr) (ctx : context_Context)
    (req : Request) : M (Ack * error) :=
  fun w =>
    let '((ack, err), st) := call_answer ctx req (clients w cli) in
    ((ack, err), exchanged w cli st (Called cli ctx req ack err)).

(** Read the object a [*fileSystem] points to. *)
Definition load (fs : fileSystemPtr) : M fileSystem :=
  fun w => (objects w fs, w).

(** [func (cli *Client) FS() xrdfs.FileSystem { return &fileSystem{cli} }]:
    a new object that holds [cli]. *)
Definition Client_FS (cli : ClientPtr) : M fileSystemPtr :=
  fun w =>
    (next_object w,
     {| objects := store (objects w) (next_object w) {| c := cli |};
        next_object := S (next_object w);
        clients := clients w;
        wire := wire w |}).

(** [func (fs *fileSystem) Dirlist(ctx, path) ([]xrdfs.EntryStat, error)] *)
Definition Dirlist (fs : fileSystemPtr) (ctx : context_Context)
    (path : string) : M (slice xrdfs.EntryStat * error) :=
  this <- load fs ;;
  ' (resp, err) <- Client_Send (c this) ctx DirlistSink
                     (zero : dirlist.Response)
                     (ReqDirlist (dirlist.NewRequest path)) ;;
  match err with
  | Some _ => ret (None, err)
  | None => ret (dirlist.Entries resp, err)
  end.

(** [func (fs *fileSystem) Open(ctx, path, mode, options) (xrdfs.File, error)];
    the [xrdfs.File] is [nil] or the address of a new [file]. *)
Definition Open (fs : fileSystemPtr) (ctx : context_Context) (path : string)
    (mode : xrdfs.OpenMode) (options : xrdfs.OpenOptions)
    : M (option file * error) :=
  this <- load fs ;;
  ' (resp, err) <- Client_Send (c this) ctx OpenSink
                     (zero : open.Response)
                     (ReqOpen (open.NewRequest path mode options)) ;;
  match err with
  | Some _ => ret (None, err)
  | None =>
      ret (Some {| file_fs := fs;
                   file_handle := open.FileHandle resp;
                   file_compression := open.Compression resp;
                   file_info := open.Stat resp |},
           None)
  end.

(** [func (fs *fileSystem) RemoveFile(ctx, path) error] *)
Definition RemoveFile (fs : fileSystemPtr) (ctx : context_Context)
    (path : string) : M error :=
  this <- load fs ;;
  ' (_, err) <- Client_call (c this) ctx (ReqRm {| rm.Path := path |}) ;;
  ret err.

(** [func (fs *fileSystem) Truncate(ctx, path, size) error] *)
Definition Truncate (fs : fileSystemPtr) (ctx : context_Context)
    (path : string) (size : Z) : M error :=
  this <- load fs ;;
  ' (_, err) <- Client_call (c this) ctx
                  (ReqTruncate {| truncate.Path := path;
                                  truncate.Size := size |}) ;;
  ret err.

(** [func (fs *fileSystem) Stat(ctx, path) (xrdfs.EntryStat, error)] *)
Definition Stat (fs : fileSystemPtr) (ctx : context_Context)
    (path : string) : M (xrdfs.EntryStat * error) :=
  this <- load fs ;;
  ' (resp, err) <- Client_Send (c this) ctx StatDefaultSink
                     (zero : stat.DefaultResponse)
                     (ReqStat {| stat.Path := path;
                                 stat.Options := zero |}) ;;
  match err with
  | Some _ => ret (zero, err)
  | None => ret (stat.EntryStat resp, None)
  end.

(** [func (fs *fileSystem) VirtualStat(ctx, path) (xrdfs.VirtualFSStat, error)] *)
Definition VirtualStat (fs : fileSystemPtr) (ctx : context_Context)
    (path : string) : M (xrdfs.VirtualFSStat * error) :=
  this <- load fs ;;
  ' (resp, err) <- Client_Send (c this) ctx StatVirtualFSSink
                     (zero : stat.VirtualFSResponse)
                     (ReqStat {| stat.Path := path;
                                 stat.Options := stat.OptionsVFS |}) ;;
  match err with
  | Some _ => ret (zero, err)
  | None => ret (stat.VirtualFSStat resp, None)
  end.

(** [func (fs *fileSystem) Mkdir(ctx, path, perm) error] *)
Definition Mkdir (fs : fileSystemPtr) (ctx : context_Context)
    (path : string) (perm : xrdfs.OpenMode) : M error :=
  this <- load fs ;;
  ' (_, err) <- Client_call (c this) ctx
                  (ReqMkdir {| mkdir.Path := path;
                               mkdir.Mode := perm;
                               mkdir.Options := zero |}) ;;
  ret err.

(** [func (fs *fileSystem) MkdirAll(ctx, path, perm) error] *)
Definition MkdirAll (fs : fileSystemPtr) (ctx : context_Context)
    (path : string) (perm : xrdfs.OpenMode) : M error :=
  this <- load fs ;;
  ' (_, err) <- Client_call (c this) ctx
                  (ReqMkdir {| mkdir.Path := path;
                               mkdir.Mode := perm;
                               mkdir.Options := mkdir.OptionsMakePath |}) ;;
  ret err.

(** [func (fs *fileSystem) RemoveDir(ctx, path) error] *)
Definition RemoveDir (fs : fileSystemPtr) (ctx : context_Context)
    (path : string) : M error :=
  this <- load fs ;;
  ' (_, err) <- Client_call (c this) ctx (ReqRmdir {| rmdir.Path := path |}) ;;
  ret err.

(** [func (fs *fileSystem) Rename(ctx, oldpath, newpath) error] *)
Definition Rename (fs : fileSystemPtr) (ctx : context_Context)
    (oldpath newpath : string) : M error :=
  this <- load fs ;;
  ' (_, err) <- Client_call (c this) ctx
                  (ReqMv {| mv.OldPath := oldpath;
                            mv.NewPath := newpath |}) ;;
  ret err.

(** [func (fs *fileSystem) Chmod(ctx, path, perm) error] *)
Definition Chmod (fs : fileSystemPtr) (ctx : context_Context)
    (path : string) (perm : xrdfs.OpenMode) : M error :=
  this <- load fs ;;
  ' (_, err) <- Client_call (c this) ctx
                  (ReqChmod {| chmod.Path := path;
                               chmod.Mode := perm |}) ;;
  ret err.

(** ** The method set as one type

    [var _ xrdfs.FileSystem = ...fileSystem...]: the eleven methods are the
    operations of the interface. A call is a method with its arguments, and
    what it returns is the method's result tuple; [invoke] dispatches, so
    that a statement can range over every operation. *)

Inductive Operation : Type :=
| OpDirlist (path : string)
| OpOpen (path : string) (mode : xrdfs.OpenMode) (options : xrdfs.OpenOptions)
| OpRemoveFile (path : string)
| OpTruncate (path : string) (size : Z)
| OpStat (path : string)
| OpVirtualStat (path : string)
| OpMkdir (path : string) (perm : xrdfs.OpenMode)
| OpMkdirAll (path : string) (perm : xrdfs.OpenMode)
| OpRemoveDir (path : string)
| OpRename (oldpath newpath : string)
| OpChmod (path : string) (perm : xrdfs.OpenMode).

Inductive Returned : Type :=
| RetEntries (entries : slice xrdfs.EntryStat) (err : error)
| RetFile (f : option file) (err : error)
| RetEntryStat (st : xrdfs.EntryStat) (err : error)
| RetVirtualFSStat (st : xrdfs.VirtualFSStat) (err : error)
| RetError (err : error).

Definition invoke (fs : fileSystemPtr) (ctx : context_Context)
    (op : Operation) : M Returned :=
  match op with
  | OpDirlist path =>
      ' (v, err) <- Dirlist fs ctx path ;; ret (RetEntries v err)
  | OpOpen path mode options =>
      ' (v, err) <- Open fs ctx path mode options ;; ret (RetFile v err)
  | OpRemoveFile path =>
      err <- RemoveFile fs ctx path ;; ret (RetError err)
  | OpTruncate path size =>
      err <- Truncate fs ctx path size ;; ret (RetError err)
  | OpStat path =>
      ' (v, err) <- Stat fs ctx path ;; ret (RetEntryStat v err)
  | OpVirtualStat path =>
      ' (v, err) <- VirtualStat fs ctx path ;; ret (RetVirtualFSStat v err)
  | OpMkdir path perm =>
      err <- Mkdir fs ctx path perm ;; ret (RetError err)
  | OpMkdirAll path perm =>
      err <- MkdirAll fs ctx path perm ;; ret (RetError err)
  | OpRemoveDir path =>
      err <- RemoveDir fs ctx path ;; ret (RetError err)
  | OpRename oldpath newpath =>
      err <- Rename fs ctx oldpath newpath ;; ret (RetError err)
  | OpChmod path perm =>
      err <- Chmod fs ctx path perm ;; ret (RetError err)
  end.

(** The error of a result tuple. *)
Definition returned_error (r : Returned) : error :=
  match r with
  | RetEntries _ err | RetFile _ err | RetEntryStat _ err
  | RetVirtualFSStat _ err | RetError err => err
  end.

(** The value beside the error carries nothing: a [nil] slice, a [nil]
    File, the zero value of a record type; a method that returns only an
    error has no value to carry. *)
Definition carries_nothing (r : Returned) : Prop :=
  match r with
  | RetEntries v _ => v = None
  | RetFile v _ => v = None
  | RetEntryStat v _ => v = zero
  | RetVirtualFSStat v _ => v = zero
  | RetError _ => True
  end.

(** An [EntryStat] or [VirtualFSStat] at its default value comes back
    together with an error. *)
Definition default_valued_beside_error (r : Returned) : Prop :=
  match r with
  | RetEntryStat v (Some _) => v = zero
  | RetVirtualFSStat v (Some _) => v = zero
  | _ => False
  end.

(** ** Reading the wire *)

Definition exchange_request (x : Exchange) : Request :=
  match x with
  | Sent _ _ _ req _ _ => req
  | Called _ _ req _ _ => req
  end.

Definition exchange_error (x : Exchange) : error :=
  match x with
  | Sent _ _ _ _ _ err => err
  | Called _ _ _ _ err => err
  end.

(** What the transport answers when [Send] goes out from the world [w]
    through the client [cli]: the response value after the call, the
    error, and the exchange on record. *)
Definition Send_response (w : World) (cli : ClientPtr) (ctx : context_Context)
    (k : SinkKind) (resp : Sink k) (req : Request) : Sink k :=
  fst (fst (Send_answer k ctx resp req (clients w cli))).

Definition Send_error (w : World) (cli : ClientPtr) (ctx : context_Context)
    (k : SinkKind) (resp : Sink k) (req : Request) : error :=
  snd (fst (Send_answer k ctx resp req (clients w cli))).

Definition Send_exchange (w : World) (cli : ClientPtr) (ctx : context_Context)
    (k : SinkKind) (resp : Sink k) (req : Request) : Exchange :=
  Sent cli ctx k req (Send_response w cli ctx k resp req)
       (Send_error w cli ctx k resp req).

(** The same for [call]. *)
Definition call_ack (w : World) (cli : ClientPtr) (ctx : context_Context)
    (req : Request) : Ack :=
  fst (fst (call_answer ctx req (clients w cli))).

Definition call_error (w : World) (cli : ClientPtr) (ctx : context_Context)
    (req : Request) : error :=
  snd (fst (call_answer ctx req (clients w cli))).

Definition call_exchange (w : World) (cli : ClientPtr) (ctx : context_Context)
    (req : Request) : Exchange :=
  Called cli ctx req (call_ack w cli ctx req) (call_error w cli ctx req).

(** What a method called on [fs] returns for an exchange that reported no
    error: the fields of the decoded response, or nothing for a method that
    returns only an error. *)
Definition decoded (fs : fileSystemPtr) (x : Exchange) : Returned :=
  match x with
  | Sent _ _ k _ resp _ =>
      match k return Sink k -> Returned with
      | DirlistSink => fun r => RetEntries (dirlist.Entries r) None
      | OpenSink => fun r =>
          RetFile (Some {| file_fs := fs;
                           file_handle := open.FileHandle r;
                           file_compression := open.Compression r;
                           file_info := open.Stat r |}) None
      | StatDefaultSink => fun r => RetEntryStat (stat.EntryStat r) None
      | StatVirtualFSSink => fun r => RetVirtualFSStat (stat.VirtualFSStat r) None
      end resp
  | Called _ _ _ _ _ => RetError None
  end.

(** The requests that went out, oldest first. *)
Definition requests (w : World) : list Request :=
  map exchange_request (wire w).

(** The error the transport reported in the latest exchange. *)
Definition reported (w : World) : error :=
  match rev (wire w) with
  | x :: _ => exchange_error x
  | [] => None
  end.

End Facade.

(** ** A fake transport

    A small instance on which statements are evaluated: entries are a name
    with a size, and the server answers every request the same way. A
    context is live, or it fired before the answer came (the transport
    reports its error and leaves the response value as it got it), or
    the exchange broke after the answer was decoded (the transport has
    written the response value and still reports an error). *)

Module Fake.

Definition xrdfs_decls : xrdfs.Decls :=
  {| xrdfs.EntryStat := string * Z;
     xrdfs.EntryStat_zero := ("", 0%Z);
     xrdfs.VirtualFSStat := Z;
     xrdfs.VirtualFSStat_zero := 0%Z;
     xrdfs.FileHandle := Z;
     xrdfs.FileHandle_zero := 0%Z;
     xrdfs.FileCompression := Z;
     xrdfs.FileCompression_zero := 0%Z |}.

#[local] Existing Instance xrdfs_decls.

Definition packages : Packages :=
  {| pkg_xrdfs := xrdfs_decls;
     pkg_dirlist := {| dirlist.Request := string;
                       dirlist.NewRequest := fun path => path |};
     pkg_open := {| open.Request := string * Z * Z;
                    open.NewRequest := fun path mode options =>
                                         (path, mode, options) |};
     pkg_stat := {| stat.OptionsVFS := 1%Z |};
     pkg_mkdir := {| mkdir.OptionsMakePath := 1%Z |} |}.

#[local] Existing Instance packages.

(** What the server decodes into a response value of each kind. *)
Definition answer (k : SinkKind) : Sink k :=
  match k return Sink k with
  | DirlistSink =>
      {| dirlist.Entries := Some [("a", 1%Z); ("b", 2%Z)] |}
  | OpenSink =>
      {| open.FileHandle := 7%Z;
         open.Compression := 0%Z;
         open.Stat := ("f", 3%Z) |}
  | StatDefaultSink => {| stat.EntryStat := ("f", 3%Z) |}
  | StatVirtualFSSink => {| stat.VirtualFSStat := 100%Z |}
  end.

Inductive Ctx : Type :=
| Live
| Fired (e : GoError)
| BrokenAfterDecode (e : GoError).

(** The state of a client counts the requests it got answered. *)
Definition transport : Transport :=
  {| context_Context := Ctx;
     ClientState := nat;
     Ack := unit;
     Send_answer := fun k ctx resp _ st =>
       match ctx with
       | Live => ((answer k, None), S st)
       | Fired e => ((resp, Some e), st)
       | BrokenAfterDecode e => ((answer k, Some e), S st)
       end;
     call_answer := fun ctx _ st =>
       match ctx with
       | Live => ((tt, None), S st)
       | Fired e => ((tt, Some e), st)
       | BrokenAfterDecode e => ((tt, Some e), S st)
       end |}.

#[local] Existing Instance transport.

(** One [fileSystem] object at address 0, over the client at address 0;
    nothing sent yet. *)
Definition world : World :=
  {| objects := fun _ => {| c := 0 |};
     next_object := 1;
     clients := fun _ => 0;
     wire := [] |}.

(** A live context, one that was canceled, and an exchange that lost the
    connection after the answer was decoded. *)
Definition live : context_Context := Live.
Definition canceled : context_Context := Fired context_Canceled.
Definition broken : context_Context :=
  BrokenAfterDecode (ConnectionError "connection reset").

End Fake.

(** ** Calls in sequence *)

Section Calls.

Context {P : Packages} {T : Transport}.

Local Open Scope go_scope.

(** The client through which an exchange went, and the context it went
    with. *)
Definition exchange_client (x : Exchange) : ClientPtr :=
  match x with
  | Sent cli _ _ _ _ _ => cli
  | Called cli _ _ _ _ => cli
  end.

Definition exchange_context (x : Exchange) : context_Context :=
  match x with
  | Sent _ ctx _ _ _ _ => ctx
  | Called _ ctx _ _ _ => ctx
  end.

(** One call of a caller's program: a method of the facade [on], with the
    context [under] and the arguments in [what]. *)
Record Invocation : Type := {
  on : fileSystemPtr;
  under : context_Context;
  what : Operation
}.

(** A caller that makes the calls one after the other and keeps every
    result, whether it reports an error or not. *)
Fixpoint invoke_each (calls : list Invocation) : M (list Returned) :=
  match calls with
  | [] => ret []
  | i :: rest =>
      r <- invoke (on i) (under i) (what i) ;;
      rs <- invoke_each rest ;;
      ret (r :: rs)
  end.

End Calls.

(** * Decoding a vector (rootio, Key.DecodeVector)

    [DecodeVector] reads from a [bytes.Buffer] a header of six bytes, a
    big-endian [int32] count and that many elements into the front of the
    slice it is given. The buffer is the list of its unread bytes. *)

Module rootio.

Definition byte : Type := Byte.byte.

(** The unread part of a [bytes.Buffer]. *)
Definition Buffer : Type := list byte.

(** The two errors a read from a buffer ends in. *)
Inductive io_error : Type :=
| io_EOF
| io_ErrUnexpectedEOF.

(** [in.Next(n)]: the next [n] bytes, or the whole buffer if it holds
    fewer; the buffer moves past them. *)
Definition Buffer_Next (n : nat) (b : Buffer) : list byte * Buffer :=
  (firstn n b, skipn n b).

(** [io.ReadFull] of [n] bytes from a buffer, as [binary.Read] uses it:
    nothing is read for [n = 0]; an empty buffer gives [io.EOF]; a buffer
    with fewer than [n] bytes is drained and gives
    [io.ErrUnexpectedEOF]. *)
Definition io_ReadFull (n : nat) (b : Buffer)
    : (list byte * option io_error) * Buffer :=
  match n with
  | O => (([], None), b)
  | S _ =>
      match b with
      | [] => (([], Some io_EOF), [])
      | _ :: _ =>
          if Nat.ltb (List.length b) n
          then ((b, Some io_ErrUnexpectedEOF), [])
          else ((firstn n b, None), skipn n b)
      end
  end.

Definition byte_val (b : byte) : Z := Z.of_N (Byte.to_N b).

(** [binary.BigEndian.Uint32]:
    [b[3] | b[2]<<8 | b[1]<<16 | b[0]<<24]. *)
Definition BigEndian_Uint32 (bs : list byte) : Z :=
  match bs with
  | [b0; b1; b2; b3] =>
      Z.lor (Z.lor (Z.lor (byte_val b3) (Z.shiftl (byte_val b2) 8))
                   (Z.shiftl (byte_val b1) 16))
            (Z.shiftl (byte_val b0) 24)
  | _ => 0
  end%Z.

(** The conversion [int32(u)] of a [uint32]: the same 32 bits read as a
    signed number. *)
Definition int32 (u : Z) : Z :=
  (if u <? 2 ^ 31 then u else u - 2 ^ 32)%Z.

(** An element type that [encoding/binary] reads: it takes [size] bytes,
    and [decode] is its value from them in big-endian order. *)
Class Fixed (A : Type) : Type := {
  size : nat;
  decode : list byte -> A
}.

(** [int32] elements. *)
#[global] Instance int32_Fixed : Fixed Z :=
  {| size := 4; decode := fun bs => int32 (BigEndian_Uint32 bs) |}.

(** [uint8] elements. *)
#[global] Instance uint8_Fixed : Fixed byte :=
  {| size := 1;
     decode := fun bs => match bs with b :: _ => b | [] => Byte.x00 end |}.

(** [binary.Read(in, binary.BigEndian, &n)] for [var n int32]: the value
    [n] holds after the call (unchanged on an error), the error, and the
    buffer after the call. *)
Definition binary_Read_int32 (n : Z) (b : Buffer)
    : (Z * option io_error) * Buffer :=
  let '((bs, err), b') := io_ReadFull 4 b in
  match err with
  | Some e => ((n, Some e), b')
  | None => ((int32 (BigEndian_Uint32 bs), None), b')
  end.

(** The elements of a slice of [k] elements, read one after the other
    from [bs]. *)
Fixpoint read_elems {A : Type} `{Fixed A} (k : nat) (bs : list byte)
    : list A :=
  match k with
  | O => []
  | S k' => decode (firstn size bs) :: read_elems k' (skipn size bs)
  end.

(** A Go slice: the cells of its array from its first element up to its
    capacity, and its length. *)
Record Slice (A : Type) : Type := {
  array : list A;
  len : nat
}.

Arguments array {A} _.
Arguments len {A} _.

Definition cap {A : Type} (s : Slice A) : nat := List.length (array s).

(** [reflect.ValueOf(dst).Slice(0, n)]: the slice of length [n] over the
    same array; it panics ([None]) when [n] is negative or beyond the
    capacity. *)
Definition reflect_Slice {A : Type} (dst : Slice A) (n : Z)
    : option (Slice A) :=
  if ((n <? 0) || (Z.of_nat (cap dst) <? n))%Z%bool
  then None
  else Some {| array := array dst; len := Z.to_nat n |}.

(** [binary.Read(in, binary.BigEndian, s)] for a slice [s]: all its bytes
    are read first and the elements are stored only when they all
    arrived. The result is the array after the call. *)
Definition binary_Read_slice {A : Type} `{Fixed A} (s : Slice A) (b : Buffer)
    : (list A * option io_error) * Buffer :=
  let '((bs, err), b') := io_ReadFull (size * len s) b in
  match err with
  | Some e => ((array s, Some e), b')
  | None =>
      ((read_elems (len s) bs ++ skipn (len s) (array s), None), b')
  end.

(** What a call of [DecodeVector] ends in: a panic, or its two results
    with the buffer and the destination as the call left them. *)
Inductive Outcome (A : Type) : Type :=
| Panic (rest : Buffer)
| Return (n : Z) (err : option io_error) (rest : Buffer) (dst : Slice A).

Arguments Panic {A} _.
Arguments Return {A} _ _ _ _.

(** [func (k *Key) DecodeVector(in *bytes.Buffer, dst interface{}) (int, error)],
    for a [dst] that holds a slice of elements [encoding/binary] reads. *)
Definition DecodeVector {A : Type} `{Fixed A} (in_ : Buffer) (dst : Slice A)
    : Outcome A :=
  let '(x, in1) := Buffer_Next 6 in_ in
  let '((n, err), in2) := binary_Read_int32 0 in1 in
  match err with
  | Some e => Return (-1) (Some e) in2 dst
  | None =>
      match reflect_Slice dst n with
      | None => Panic in2
      | Some s =>
          let '((arr, err), in3) := binary_Read_slice s in2 in
          match err with
          | Some e => Return (-1) (Some e) in3 dst
          | None => Return n None in3 {| array := arr; len := len dst |}
          end
      end
  end.

(** The bytes of a 32-bit value in big-endian order, as
    [binary.BigEndian.PutUint32] lays them out. *)
Definition to_byte (z : Z) : byte :=
  match Byte.of_N (Z.to_N (z mod 256)) with
  | Some b => b
  | None => Byte.x00
  end.

Definition BigEndian_PutUint32 (z : Z) : list byte :=
  [to_byte (Z.shiftr z 24); to_byte (Z.shiftr z 16);
   to_byte (Z.shiftr z 8); to_byte z].

(** A vector as a big-endian writer lays it out for [DecodeVector]: the
    six bytes of the header, the count, the elements. *)
Definition encode_int32_vector (header : list byte) (vs : list Z)
    : list byte :=
  header ++ BigEndian_PutUint32 (Z.of_nat (List.length vs))
         ++ flat_map BigEndian_PutUint32 vs.

End rootio.

(** ** Sample bytes

    The header the comment in the source shows, the counts 2 and 4, the
    bytes of the two values 5 and -2, and a destination of length 1 and
    capacity 3. *)

Module SampleBytes.

Import rootio.

Definition header : list byte :=
  [Byte.x40; Byte.x00; Byte.x00; Byte.x0e; Byte.x00; Byte.x09].
Definition two : list byte := [Byte.x00; Byte.x00; Byte.x00; Byte.x02].
Definition four : list byte := [Byte.x00; Byte.x00; Byte.x00; Byte.x04].
Definition values : list byte :=
  [Byte.x00; Byte.x00; Byte.x00; Byte.x05;
   Byte.xff; Byte.xff; Byte.xff; Byte.xfe].
Definition dst : Slice Z := {| array := [7; 7; 7]%Z; len := 1 |}.

End SampleBytes.

(** * Drawing a histogram (hplot, H1D)

    [Plot] builds the outline of the histogram from its bins and draws it,
    then draws the legend that the info style asks for; [GlyphBoxes] gives
    one box per bin. Numbers of Go type [float64] and [vg.Length] are
    values of two types of which nothing is assumed: their operations and
    the calls into the plotting libraries are members of a class. *)

Module hplot.

(** What the code uses of [float64] and [vg.Length], of packages [vg],
    [draw], [plot] and [fmt], and of the default style. *)
Class Env : Type := {
  float64 : Type;
  Length : Type;
  f_0 : float64;
  f_half : float64;
  f_eq : float64 -> float64 -> bool;
  f_add : float64 -> float64 -> float64;
  f_sub : float64 -> float64 -> float64;
  f_mul : float64 -> float64 -> float64;
  vg_Length : float64 -> Length;
  vg_Points_5 : Length;
  Color : Type;
  LineStyle : Type;
  Font : Type;
  vgCanvas : Type;
  Plot_ : Type;
  X_Norm : Plot_ -> float64 -> float64;
  Y_Norm : Plot_ -> float64 -> float64;
  vg_MakeFont : option Font;
  Tick_Size : Length;
  Sprintf_g : float64 -> string;
  Sprintf_v : Z -> string
}.

Section WithEnv.

Context {E : Env}.

(** [vg.Point] *)
Record Point : Type := {
  X : Length;
  Y : Length
}.

(** [draw.Canvas]: the canvas it draws on and its rectangle. *)
Record Canvas : Type := {
  Canvas_ : vgCanvas;
  Min : Point;
  Max : Point
}.

(** What the code reads of a bin of the histogram, [hbook.Bin1D]. *)
Record Bin : Type := {
  XMin : float64;
  XMax : float64;
  XWidth : float64;
  SumW : float64
}.

(** What the code reads of the histogram, [hbook.H1D]. *)
Record Hist_ : Type := {
  Bins : list Bin;
  Entries : Z;
  XMean : float64;
  XRMS : float64;
  XStdDev : float64
}.

(** [type HInfoStyle uint32] and its constants: [HInfoNone] is 0 and
    [HInfoEntries] is [1 << iota] on the second line of the block. *)
Definition HInfoStyle : Type := Z.

Definition HInfoNone : HInfoStyle := 0%Z.
Definition HInfoEntries : HInfoStyle := Z.shiftl 1 1%Z.
Definition HInfoMean : HInfoStyle := Z.shiftl 1 2%Z.
Definition HInfoRMS : HInfoStyle := Z.shiftl 1 3%Z.
Definition HInfoStdDev : HInfoStyle := Z.shiftl 1 4%Z.
Definition HInfoSummary : HInfoStyle :=
  Z.lor (Z.lor HInfoEntries HInfoMean) HInfoStdDev.

Record HInfos : Type := {
  Style : HInfoStyle
}.

(** [type H1D struct]; a [nil] fill colour is [None]. *)
Record H1D : Type := {
  Hist : Hist_;
  FillColor : option Color;
  LineStyle_ : LineStyle;
  LogY : bool;
  Infos : HInfos
}.

Record legendEntry : Type := {
  text : string;
  value : string
}.

(** [draw.TextStyle{Font: fnt}] *)
Record TextStyle : Type := {
  Font_ : Font
}.

(** [type histLegend struct]: the fields that [Plot] and [Add] write. *)
Record histLegend : Type := {
  TextStyle_ : TextStyle;
  Top : bool;
  ColWidth : Length;
  entries : list legendEntry
}.

(** The values [Plot] hands to [Add]: an [int64] or a [float64]. *)
Inductive Value : Type :=
| Int64 (z : Z)
| Float64 (f : float64).

(** [func (l *histLegend) Add(name string, value interface{})] *)
Definition Add (l : histLegend) (name : string) (v : Value) : histLegend :=
  let str :=
    match v with
    | Float64 f => Sprintf_g f
    | Int64 z => Sprintf_v z
    end in
  {| TextStyle_ := TextStyle_ l;
     Top := Top l;
     ColWidth := ColWidth l;
     entries := entries l ++ [{| text := name; value := str |}] |}.

(** The body of the loop over the 32 bits of the style:
    [switch h.Infos.Style & (1 << i)]. *)
Definition info_case (style : HInfoStyle) (hist : Hist_) (i : Z)
    (legend : histLegend) : histLegend :=
  let bit := Z.land style (Z.shiftl 1 i) in
  if Z.eqb bit HInfoEntries then Add legend "Entries" (Int64 (Entries hist))
  else if Z.eqb bit HInfoMean then Add legend "Mean" (Float64 (XMean hist))
  else if Z.eqb bit HInfoRMS then Add legend "RMS" (Float64 (XRMS hist))
  else if Z.eqb bit HInfoStdDev
       then Add legend "Std Dev" (Float64 (XStdDev hist))
  else legend.

(** [for i := uint32(0); i < 32; i++], from [i] with [todo] rounds to go. *)
Fixpoint info_loop (style : HInfoStyle) (hist : Hist_) (i : Z) (todo : nat)
    (legend : histLegend) : histLegend :=
  match todo with
  | O => legend
  | S todo' =>
      info_loop style hist (i + 1)%Z todo' (info_case style hist i legend)
  end.

(** The legend [Plot] draws, if it draws one: none for [HInfoNone] and
    none when the font could not be made. *)
Definition Plot_legend (h : H1D) : option histLegend :=
  if Z.eqb (Style (Infos h)) HInfoNone then None
  else
    match vg_MakeFont with
    | None => None
    | Some fnt =>
        let legend :=
          {| TextStyle_ := {| Font_ := fnt |};
             Top := false;
             ColWidth := Tick_Size;
             entries := [] |} in
        let legend := info_loop (Style (Infos h)) (Hist h) 0%Z 32 legend in
        Some {| TextStyle_ := TextStyle_ legend;
                Top := true;
                ColWidth := ColWidth legend;
                entries := entries legend |}
    end.

(** [yfct]: the lower and the upper end of a bar of weight [sumw]. *)
Definition yfct (h : H1D) (c : Canvas) (trY : float64 -> Length)
    (sumw : float64) : Length * Length :=
  if LogY h then
    let ymin := Y (Min c) in
    let ymax := Y (Min c) in
    let ymax := if negb (f_eq f_0 sumw) then trY sumw else ymax in
    (ymin, ymax)
  else (trY f_0, trY sumw).

(** One round of [for i, bin := range bins]: the points the bin at index
    [i] adds. *)
Definition Plot_bin (h : H1D) (c : Canvas) (trX trY : float64 -> Length)
    (bins : list Bin) (i : nat) (bin : Bin) (pts : list Point) : list Point :=
  let nbins := Z.of_nat (List.length bins) in
  let xmin := trX (XMin bin) in
  let xmax := trX (XMax bin) in
  let sumw := SumW bin in
  let '(ymin, ymax) := yfct h c trY sumw in
  if Z.eqb (Z.of_nat i) 0%Z then
    pts ++ [{| X := xmin; Y := ymin |}]
        ++ [{| X := xmin; Y := ymax |}]
        ++ [{| X := xmax; Y := ymax |}]
  else
    let lft := nth (i - 1) bins bin in
    let xlft := trX (XMax lft) in
    let ylft := snd (yfct h c trY (SumW lft)) in
    if Z.eqb (Z.of_nat i) (nbins - 1)%Z then
      pts ++ [{| X := xlft; Y := ylft |}]
          ++ [{| X := xmin; Y := ymax |}]
          ++ [{| X := xmax; Y := ymax |}]
          ++ [{| X := xmax; Y := ymin |}]
    else
      pts ++ [{| X := xlft; Y := ylft |}]
          ++ [{| X := xmin; Y := ymax |}]
          ++ [{| X := xmax; Y := ymax |}].

(** The loop from index [i] over the bins that are left. *)
Fixpoint Plot_bins (h : H1D) (c : Canvas) (trX trY : float64 -> Length)
    (bins : list Bin) (i : nat) (left : list Bin) (pts : list Point)
    : list Point :=
  match left with
  | [] => pts
  | bin :: left' =>
      Plot_bins h c trX trY bins (S i) left'
        (Plot_bin h c trX trY bins i bin pts)
  end.

(** The outline [Plot] hands to the canvas. *)
Definition Plot_pts (h : H1D) (c : Canvas) (trX trY : float64 -> Length)
    : list Point :=
  Plot_bins h c trX trY (Bins (Hist h)) 0 (Bins (Hist h)) [].

(** What [Plot] asks of the canvas, in order. *)
Inductive Drawing : Type :=
| FillPolygon (clr : Color) (pts : list Point)
| StrokeLines (sty : LineStyle) (lines : list (list Point))
| draw_legend (legend : histLegend).

(** [func (h *H1D) Plot(c draw.Canvas, p *plot.Plot)], with the transforms
    that [p.Transforms(&c)] gave and the two clipping methods of the
    canvas. *)
Definition Plot (ClipPolygonXY : Canvas -> list Point -> list Point)
    (ClipLinesXY : Canvas -> list Point -> list (list Point))
    (h : H1D) (c : Canvas) (trX trY : float64 -> Length)
    : list Drawing :=
  let pts := Plot_pts h c trX trY in
  (match FillColor h with
   | Some clr => [FillPolygon clr (ClipPolygonXY c pts)]
   | None => []
   end)
  ++ [StrokeLines (LineStyle_ h) (ClipLinesXY c pts)]
  ++ (match Plot_legend h with
      | Some legend => [draw_legend legend]
      | None => []
      end).

(** [plot.GlyphBox] *)
Record GlyphBox : Type := {
  Box_X : float64;
  Box_Y : float64;
  Rectangle_Min : Point;
  Rectangle_Max : Point
}.

(** [var box plot.GlyphBox] *)
Definition zero_box : GlyphBox :=
  {| Box_X := f_0;
     Box_Y := f_0;
     Rectangle_Min := {| X := vg_Length f_0; Y := vg_Length f_0 |};
     Rectangle_Max := {| X := vg_Length f_0; Y := vg_Length f_0 |} |}.

(** The box of one bin, assignment by assignment. *)
Definition bin_box (p : Plot_) (bin : Bin) : GlyphBox :=
  let y := SumW bin in
  let box := zero_box in
  let xmin := XMin bin in
  let w := X_Norm p (XWidth bin) in
  let box := {| Box_X := X_Norm p (f_add xmin (f_mul f_half w));
                Box_Y := Box_Y box;
                Rectangle_Min := Rectangle_Min box;
                Rectangle_Max := Rectangle_Max box |} in
  let box := {| Box_X := Box_X box;
                Box_Y := Y_Norm p y;
                Rectangle_Min := Rectangle_Min box;
                Rectangle_Max := Rectangle_Max box |} in
  let box := {| Box_X := Box_X box;
                Box_Y := Box_Y box;
                Rectangle_Min :=
                  {| X := vg_Length (f_sub xmin (f_mul f_half w));
                     Y := Y (Rectangle_Min box) |};
                Rectangle_Max := Rectangle_Max box |} in
  let box := {| Box_X := Box_X box;
                Box_Y := Box_Y box;
                Rectangle_Min :=
                  {| X := X (Rectangle_Min box);
                     Y := vg_Length (f_sub y (f_mul f_half w)) |};
                Rectangle_Max := Rectangle_Max box |} in
  let box := {| Box_X := Box_X box;
                Box_Y := Box_Y box;
                Rectangle_Min := Rectangle_Min box;
                Rectangle_Max :=
                  {| X := vg_Length w; Y := Y (Rectangle_Max box) |} |} in
  let box := {| Box_X := Box_X box;
                Box_Y := Box_Y box;
                Rectangle_Min := Rectangle_Min box;
                Rectangle_Max :=
                  {| X := X (Rectangle_Max box); Y := vg_Length f_0 |} |} in
  let r := vg_Points_5 in
  let box := {| Box_X := Box_X box;
                Box_Y := Box_Y box;
                Rectangle_Min := {| X := vg_Length f_0; Y := vg_Length f_0 |};
                Rectangle_Max := Rectangle_Max box |} in
  {| Box_X := Box_X box;
     Box_Y := Box_Y box;
     Rectangle_Min := Rectangle_Min box;
     Rectangle_Max := {| X := vg_Length f_0; Y := r |} |}.

(** [func (h *H1D) GlyphBoxes(p *plot.Plot) []plot.GlyphBox] *)
Fixpoint GlyphBoxes_loop (h : H1D) (p : Plot_) (left : list Bin)
    (bs : list GlyphBox) : list GlyphBox :=
  match left with
  | [] => bs
  | bin :: left' =>
      if (LogY h && f_eq (SumW bin) f_0)%bool
      then GlyphBoxes_loop h p left' bs
      else GlyphBoxes_loop h p left' (bs ++ [bin_box p bin])
  end.

Definition GlyphBoxes (h : H1D) (p : Plot_) : list GlyphBox :=
  GlyphBoxes_loop h p (Bins (Hist h)) [].

End WithEnv.

End hplot.

(** ** A plot over the rationals

    An instance on which statements about the histogram are evaluated:
    numbers and lengths are rationals, a length is the number itself, and
    a value is printed as a fixed word. *)

Module FakePlot.

Import hplot.

Definition Q : Type := QArith_base.Q.

Definition q (n : Z) : Q := QArith_base.Qmake n 1.

Definition env : Env :=
  {| float64 := Q;
     Length := Q;
     f_0 := q 0;
     f_half := QArith_base.Qmake 1 2;
     f_eq := QArith_base.Qeq_bool;
     f_add := QArith_base.Qplus;
     f_sub := QArith_base.Qminus;
     f_mul := QArith_base.Qmult;
     vg_Length := fun x => x;
     vg_Points_5 := q 5;
     Color := unit;
     LineStyle := unit;
     Font := unit;
     vgCanvas := unit;
     Plot_ := unit;
     X_Norm := fun _ x => x;
     Y_Norm := fun _ y => y;
     vg_MakeFont := Some tt;
     Tick_Size := q 10;
     Sprintf_g := fun _ => "<g> ";
     Sprintf_v := fun _ => "<v> " |}.

#[local] Existing Instance env.

(** Three bins of width 1 from 0 to 3, with weights 2, 0 and 5. *)
Definition bin (lo : Z) (w : Z) : Bin :=
  {| XMin := q lo; XMax := q (lo + 1); XWidth := q 1; SumW := q w |}.

Definition hist : Hist_ :=
  {| Bins := [bin 0 2; bin 1 0; bin 2 5];
     Entries := 7;
     XMean := QArith_base.Qmake 3 2;
     XRMS := q 2;
     XStdDev := q 1 |}.

Definition h1d (log : bool) (style : HInfoStyle) : H1D :=
  {| Hist := hist;
     FillColor := None;
     LineStyle_ := tt;
     LogY := log;
     Infos := {| Style := style |} |}.

Definition canvas : Canvas :=
  {| Canvas_ := tt;
     Min := {| X := q 0; Y := q 0 |};
     Max := {| X := q 100; Y := q 100 |} |}.

End FakePlot.

(** Split on the error of the exchange a method made, name the exchange,
    and read the result off the branch. *)
Ltac after_Send :=
  let E := fresh "E" in
  match goal with
  | |- context [Send_error ?w ?cli ?ctx ?k ?z ?r] =>
      destruct (Send_error w cli ctx k z r) eqn:E
  end;
  do 2 eexists; (split; [reflexivity |]);
  cbn [exchange_error Send_exchange]; rewrite E; cbn; auto.

Ltac after_call :=
  let E := fresh "E" in
  match goal with
  | |- context [call_error ?w ?cli ?ctx ?r] =>
      destruct (call_error w cli ctx r) eqn:E
  end;
  do 2 eexists; (split; [reflexivity |]);
  cbn [exchange_error call_exchange]; rewrite E; cbn; auto.

(** * Properties *)

Section Properties.

Context {P : Packages} {T : Transport}.

(** ** One method, one exchange *)

(** [Send] returns what the transport answers and puts the exchange on
    record. *)
Lemma Client_Send_run (cli : ClientPtr) (ctx : context_Context)
    (k : SinkKind) (resp : Sink k) (req : Request) (w : World) :
  Client_Send cli ctx k resp req w =
  ((Send_response w cli ctx k resp req, Send_error w cli ctx k resp req),
   exchanged w cli (snd (Send_answer k ctx resp req (clients w cli)))
             (Send_exchange w cli ctx k resp req)).
Proof.
  unfold Client_Send, Send_exchange, Send_response, Send_error.
  destruct (Send_answer k ctx resp req (clients w cli)) as [[resp' err] st].
  reflexivity.
Qed.

Lemma Client_call_run (cli : ClientPtr) (ctx : context_Context)
    (req : Request) (w : World) :
  Client_call cli ctx req w =
  ((call_ack w cli ctx req, call_error w cli ctx req),
   exchanged w cli (snd (call_answer ctx req (clients w cli)))
             (call_exchange w cli ctx req)).
Proof.
  unfold Client_call, call_exchange, call_ack, call_error.
  destruct (call_answer ctx req (clients w cli)) as [[ack err] st].
  reflexivity.
Qed.

(** A method that goes through [call] and returns the error: the shape of
    RemoveFile, Truncate, Mkdir, MkdirAll, RemoveDir, Rename and Chmod. *)
Lemma call_only_run (fs : fileSystemPtr) (ctx : context_Context)
    (req : Request) (w : World) :
  bind (load fs)
       (fun this =>
          bind (Client_call (c this) ctx req)
               (fun x => let (_, err) := x in ret err)) w =
  (call_error w (c (objects w fs)) ctx req,
   exchanged w (c (objects w fs))
             (snd (call_answer ctx req (clients w (c (objects w fs)))))
             (call_exchange w (c (objects w fs)) ctx req)).
Proof.
  unfold bind, load.
  rewrite Client_call_run.
  reflexivity.
Qed.

Lemma wire_exchanged (w : World) (cli : ClientPtr) (st : ClientState)
    (x : Exchange) :
  wire (exchanged w cli st x) = wire w ++ [x].
Proof. reflexivity. Qed.

Lemma requests_exchanged (w : World) (cli : ClientPtr) (st : ClientState)
    (x : Exchange) :
  requests (exchanged w cli st x) = requests w ++ [exchange_request x].
Proof.
  unfold requests.
  rewrite wire_exchanged, map_app.
  reflexivity.
Qed.

Lemma reported_exchanged (w : World) (cli : ClientPtr) (st : ClientState)
    (x : Exchange) :
  reported (exchanged w cli st x) = exchange_error x.
Proof.
  unfold reported.
  rewrite wire_exchanged, rev_app_distr.
  reflexivity.
Qed.

(** The four methods that go through [Send]: the value and the world of a
    run, from what the transport answers. *)

Lemma Dirlist_run (fs : fileSystemPtr) (ctx : context_Context)
    (path : string) (w : World) :
  let cli := c (objects w fs) in
  let req := ReqDirlist (dirlist.NewRequest path) in
  let resp := Send_response w cli ctx DirlistSink (zero : dirlist.Response) req in
  Dirlist fs ctx path w =
  (match Send_error w cli ctx DirlistSink (zero : dirlist.Response) req with
   | Some e => (None, Some e)
   | None => (dirlist.Entries resp, None)
   end,
   exchanged w cli
     (snd (Send_answer DirlistSink ctx (zero : dirlist.Response) req (clients w cli)))
     (Send_exchange w cli ctx DirlistSink (zero : dirlist.Response) req)).
Proof.
  intros cli req resp.
  unfold Dirlist, bind, load.
  rewrite Client_Send_run.
  fold cli req resp.
  destruct (Send_error w cli ctx DirlistSink (zero : dirlist.Response) req);
    reflexivity.
Qed.

Lemma Open_run (fs : fileSystemPtr) (ctx : context_Context) (path : string)
    (mode : xrdfs.OpenMode) (options : xrdfs.OpenOptions) (w : World) :
  let cli := c (objects w fs) in
  let req := ReqOpen (open.NewRequest path mode options) in
  let resp := Send_response w cli ctx OpenSink (zero : open.Response) req in
  Open fs ctx path mode options w =
  (match Send_error w cli ctx OpenSink (zero : open.Response) req with
   | Some e => (None, Some e)
   | None =>
       (Some {| file_fs := fs;
                file_handle := open.FileHandle resp;
                file_compression := open.Compression resp;
                file_info := open.Stat resp |},
        None)
   end,
   exchanged w cli
     (snd (Send_answer OpenSink ctx (zero : open.Response) req (clients w cli)))
     (Send_exchange w cli ctx OpenSink (zero : open.Response) req)).
Proof.
  intros cli req resp.
  unfold Open, bind, load.
  rewrite Client_Send_run.
  fold cli req resp.
  destruct (Send_error w cli ctx OpenSink (zero : open.Response) req);
    reflexivity.
Qed.

Lemma Stat_run (fs : fileSystemPtr) (ctx : context_Context)
    (path : string) (w : World) :
  let cli := c (objects w fs) in
  let req := ReqStat {| stat.Path := path; stat.Options := 0 |} in
  let resp :=
    Send_response w cli ctx StatDefaultSink (zero : stat.DefaultResponse) req in
  Stat fs ctx path w =
  (match Send_error w cli ctx StatDefaultSink (zero : stat.DefaultResponse) req with
   | Some e => (zero, Some e)
   | None => (stat.EntryStat resp, None)
   end,
   exchanged w cli
     (snd (Send_answer StatDefaultSink ctx (zero : stat.DefaultResponse) req
             (clients w cli)))
     (Send_exchange w cli ctx StatDefaultSink (zero : stat.DefaultResponse) req)).
Proof.
  intros cli req resp.
  unfold Stat, bind, load.
  rewrite Client_Send_run.
  change (@zero Z Z_Zero) with 0%Z.
  fold cli req resp.
  destruct (Send_error w cli ctx StatDefaultSink (zero : stat.DefaultResponse) req);
    reflexivity.
Qed.

Lemma VirtualStat_run (fs : fileSystemPtr) (ctx : context_Context)
    (path : string) (w : World) :
  let cli := c (objects w fs) in
  let req := ReqStat {| stat.Path := path; stat.Options := stat.OptionsVFS |} in
  let resp :=
    Send_response w cli ctx StatVirtualFSSink (zero : stat.VirtualFSResponse) req in
  VirtualStat fs ctx path w =
  (match Send_error w cli ctx StatVirtualFSSink (zero : stat.VirtualFSResponse) req with
   | Some e => (zero, Some e)
   | None => (stat.VirtualFSStat resp, None)
   end,
   exchanged w cli
     (snd (Send_answer StatVirtualFSSink ctx (zero : stat.VirtualFSResponse) req
             (clients w cli)))
     (Send_exchange w cli ctx StatVirtualFSSink (zero : stat.VirtualFSResponse) req)).
Proof.
  intros cli req resp.
  unfold VirtualStat, bind, load.
  rewrite Client_Send_run.
  fold cli req resp.
  destruct (Send_error w cli ctx StatVirtualFSSink (zero : stat.VirtualFSResponse) req);
    reflexivity.
Qed.

(** The seven methods that go through [call]. *)

Lemma RemoveFile_run (fs : fileSystemPtr) (ctx : context_Context)
    (path : string) (w : World) :
  let cli := c (objects w fs) in
  let req := ReqRm {| rm.Path := path |} in
  RemoveFile fs ctx path w =
  (call_error w cli ctx req,
   exchanged w cli (snd (call_answer ctx req (clients w cli)))
             (call_exchange w cli ctx req)).
Proof.
  intros cli req.
  unfold RemoveFile.
  apply call_only_run.
Qed.

Lemma Truncate_run (fs : fileSystemPtr) (ctx : context_Context)
    (path : string) (size : Z) (w : World) :
  let cli := c (objects w fs) in
  let req := ReqTruncate {| truncate.Path := path; truncate.Size := size |} in
  Truncate fs ctx path size w =
  (call_error w cli ctx req,
   exchanged w cli (snd (call_answer ctx req (clients w cli)))
             (call_exchange w cli ctx req)).
Proof.
  intros cli req.
  unfold Truncate.
  apply call_only_run.
Qed.

Lemma Mkdir_run (fs : fileSystemPtr) (ctx : context_Context)
    (path : string) (perm : xrdfs.OpenMode) (w : World) :
  let cli := c (objects w fs) in
  let req := ReqMkdir {| mkdir.Path := path; mkdir.Mode := perm; mkdir.Options := 0 |} in
  Mkdir fs ctx path perm w =
  (call_error w cli ctx req,
   exchanged w cli (snd (call_answer ctx req (clients w cli)))
             (call_exchange w cli ctx req)).
Proof.
  intros cli req.
  unfold Mkdir.
  apply call_only_run.
Qed.

Lemma MkdirAll_run (fs : fileSystemPtr) (ctx : context_Context)
    (path : string) (perm : xrdfs.OpenMode) (w : World) :
  let cli := c (objects w fs) in
  let req := ReqMkdir {| mkdir.Path := path; mkdir.Mode := perm;
                 mkdir.Options := mkdir.OptionsMakePath |} in
  MkdirAll fs ctx path perm w =
  (call_error w cli ctx req,
   exchanged w cli (snd (call_answer ctx req (clients w cli)))
             (call_exchange w cli ctx req)).
Proof.
  intros cli req.
  unfold MkdirAll.
  apply call_only_run.
Qed.

Lemma RemoveDir_run (fs : fileSystemPtr) (ctx : context_Context)
    (path : string) (w : World) :
  let cli := c (objects w fs) in
  let req := ReqRmdir {| rmdir.Path := path |} in
  RemoveDir fs ctx path w =
  (call_error w cli ctx req,
   exchanged w cli (snd (call_answer ctx req (clients w cli)))
             (call_exchange w cli ctx req)).
Proof.
  intros cli req.
  unfold RemoveDir.
  apply call_only_run.
Qed.

Lemma Rename_run (fs : fileSystemPtr) (ctx : context_Context)
    (oldpath newpath : string) (w : World) :
  let cli := c (objects w fs) in
  let req := ReqMv {| mv.OldPath := oldpath; mv.NewPath := newpath |} in
  Rename fs ctx oldpath newpath w =
  (call_error w cli ctx req,
   exchanged w cli (snd (call_answer ctx req (clients w cli)))
             (call_exchange w cli ctx req)).
Proof.
  intros cli req.
  unfold Rename.
  apply call_only_run.
Qed.

Lemma Chmod_run (fs : fileSystemPtr) (ctx : context_Context)
    (path : string) (perm : xrdfs.OpenMode) (w : World) :
  let cli := c (objects w fs) in
  let req := ReqChmod {| chmod.Path := path; chmod.Mode := perm |} in
  Chmod fs ctx path perm w =
  (call_error w cli ctx req,
   exchanged w cli (snd (call_answer ctx req (clients w cli)))
             (call_exchange w cli ctx req)).
Proof.
  intros cli req.
  unfold Chmod.
  apply call_only_run.
Qed.

(** ** Directory creation *)

(** C1. Mkdir sends exactly one mkdir request, which carries [path] and
    [perm] and has no option bit set. MkdirAll sends exactly one request
    with the same path and mode, whose options are those of Mkdir with the
    make-path bit set on top. Neither sends anything more, whatever the
    path: no walk over its components. *)
Theorem Mkdir_MkdirAll_one_request (fs : fileSystemPtr)
    (ctx : context_Context) (path : string) (perm : xrdfs.OpenMode)
    (w : World) :
  let cli := c (objects w fs) in
  let plain :=
    {| mkdir.Path := path; mkdir.Mode := perm; mkdir.Options := 0 |} in
  let made :=
    {| mkdir.Path := mkdir.Path plain;
       mkdir.Mode := mkdir.Mode plain;
       mkdir.Options := Z.lor (mkdir.Options plain) mkdir.OptionsMakePath |} in
  wire (exec (Mkdir fs ctx path perm) w) =
    wire w ++ [call_exchange w cli ctx (ReqMkdir plain)]
  /\ wire (exec (MkdirAll fs ctx path perm) w) =
    wire w ++ [call_exchange w cli ctx (ReqMkdir made)]
  /\ (forall n : Z, Z.testbit (mkdir.Options plain) n = false).
Proof.
  intros cli plain made.
  split; [| split].
  - unfold exec.
    rewrite Mkdir_run.
    apply wire_exchanged.
  - unfold exec.
    rewrite MkdirAll_run.
    cbn [snd].
    rewrite wire_exchanged.
    reflexivity.
  - intro n.
    apply Z.testbit_0_l.
Qed.

(** ** The two stat variants *)

(** C2. Stat and VirtualStat send the same request type with the same
    path; Stat leaves the options empty and VirtualStat sets the VFS
    option on top. Stat hands [Send] a default stat response and returns
    its [EntryStat]; VirtualStat hands it a virtual-filesystem response
    and returns its [VirtualFSStat]: each value comes from the response of
    its own kind. *)
Theorem Stat_VirtualStat_pairing (fs : fileSystemPtr)
    (ctx : context_Context) (path : string) (w : World) :
  let cli := c (objects w fs) in
  let q := {| stat.Path := path; stat.Options := 0 |} in
  let qv :=
    {| stat.Path := stat.Path q;
       stat.Options := Z.lor (stat.Options q) stat.OptionsVFS |} in
  let d : Sink StatDefaultSink := (zero : stat.DefaultResponse) in
  let v : Sink StatVirtualFSSink := (zero : stat.VirtualFSResponse) in
  (wire (exec (Stat fs ctx path) w) =
     wire w ++ [Send_exchange w cli ctx StatDefaultSink d (ReqStat q)]
   /\ eval (Stat fs ctx path) w =
     match Send_error w cli ctx StatDefaultSink d (ReqStat q) with
     | Some e => (zero, Some e)
     | None =>
         (stat.EntryStat
            (Send_response w cli ctx StatDefaultSink d (ReqStat q)), None)
     end)
  /\ (wire (exec (VirtualStat fs ctx path) w) =
       wire w ++ [Send_exchange w cli ctx StatVirtualFSSink v (ReqStat qv)]
     /\ eval (VirtualStat fs ctx path) w =
       match Send_error w cli ctx StatVirtualFSSink v (ReqStat qv) with
       | Some e => (zero, Some e)
       | None =>
           (stat.VirtualFSStat
              (Send_response w cli ctx StatVirtualFSSink v (ReqStat qv)), None)
       end).
Proof.
  intros cli q qv d v.
  split.
  - unfold exec, eval.
    rewrite Stat_run.
    split; reflexivity.
  - unfold exec, eval.
    rewrite VirtualStat_run.
    split; reflexivity.
Qed.

(** ** Opening *)

(** C3. Open sends exactly one open request, built from the path, the mode
    and the options as the caller gave them. When the exchange reports no
    error it returns a File that holds the handle, the compression
    descriptor and the stat snapshot of the decoded response. *)
Theorem Open_request_and_file (fs : fileSystemPtr) (ctx : context_Context)
    (path : string) (mode : xrdfs.OpenMode) (options : xrdfs.OpenOptions)
    (w : World) :
  let cli := c (objects w fs) in
  let req := ReqOpen (open.NewRequest path mode options) in
  let sink : Sink OpenSink := (zero : open.Response) in
  let resp := Send_response w cli ctx OpenSink sink req in
  wire (exec (Open fs ctx path mode options) w) =
    wire w ++ [Send_exchange w cli ctx OpenSink sink req]
  /\ eval (Open fs ctx path mode options) w =
    match Send_error w cli ctx OpenSink sink req with
    | Some e => (None, Some e)
    | None =>
        (Some {| file_fs := fs;
                 file_handle := open.FileHandle resp;
                 file_compression := open.Compression resp;
                 file_info := open.Stat resp |},
         None)
    end.
Proof.
  intros cli req sink resp.
  unfold exec, eval.
  rewrite Open_run.
  split.
  - apply wire_exchanged.
  - reflexivity.
Qed.

(** ** Listing *)

(** C7. Dirlist sends exactly one directory-listing request for [path];
    when the exchange reports no error it returns the entries of the
    decoded response, in the order the response holds them. Nothing else
    is sent, however many entries there are. *)
Theorem Dirlist_request_and_entries (fs : fileSystemPtr)
    (ctx : context_Context) (path : string) (w : World) :
  let cli := c (objects w fs) in
  let req := ReqDirlist (dirlist.NewRequest path) in
  let sink : Sink DirlistSink := (zero : dirlist.Response) in
  wire (exec (Dirlist fs ctx path) w) =
    wire w ++ [Send_exchange w cli ctx DirlistSink sink req]
  /\ eval (Dirlist fs ctx path) w =
    match Send_error w cli ctx DirlistSink sink req with
    | Some e => (None, Some e)
    | None =>
        (dirlist.Entries (Send_response w cli ctx DirlistSink sink req), None)
    end.
Proof.
  intros cli req sink.
  unfold exec, eval.
  rewrite Dirlist_run.
  split.
  - apply wire_exchanged.
  - reflexivity.
Qed.

(** ** The path operations that return only an error *)

(** C8. RemoveFile, Truncate, RemoveDir, Rename and Chmod each send exactly
    one request, which carries their arguments, and return the error of
    that exchange; what [call] hands back besides the error is dropped. *)
Theorem path_operations_one_request (fs : fileSystemPtr)
    (ctx : context_Context) (path oldpath newpath : string) (size : Z)
    (perm : xrdfs.OpenMode) (w : World) :
  let cli := c (objects w fs) in
  let sends (m : M error) (req : Request) :=
    wire (exec m w) = wire w ++ [call_exchange w cli ctx req]
    /\ eval m w = call_error w cli ctx req in
  sends (RemoveFile fs ctx path) (ReqRm {| rm.Path := path |})
  /\ sends (Truncate fs ctx path size)
        (ReqTruncate {| truncate.Path := path; truncate.Size := size |})
  /\ sends (RemoveDir fs ctx path) (ReqRmdir {| rmdir.Path := path |})
  /\ sends (Rename fs ctx oldpath newpath)
        (ReqMv {| mv.OldPath := oldpath; mv.NewPath := newpath |})
  /\ sends (Chmod fs ctx path perm)
        (ReqChmod {| chmod.Path := path; chmod.Mode := perm |}).
Proof.
  intros cli sends.
  unfold sends, exec, eval.
  rewrite RemoveFile_run, Truncate_run, RemoveDir_run, Rename_run, Chmod_run.
  cbn [fst snd].
  rewrite !wire_exchanged.
  repeat split.
Qed.

(** ** Every operation *)

(** Whatever the operation, it makes one exchange through the client that
    [fs] holds. When the exchange reports no error the operation returns
    what was decoded; when it reports one, the operation returns that
    error and a value that carries nothing. *)
Lemma invoke_run (fs : fileSystemPtr) (ctx : context_Context)
    (op : Operation) (w : World) :
  exists (x : Exchange) (st : ClientState),
    exec (invoke fs ctx op) w = exchanged w (c (objects w fs)) st x
    /\ match exchange_error x with
       | None => eval (invoke fs ctx op) w = decoded fs x
       | Some e =>
           returned_error (eval (invoke fs ctx op) w) = Some e
           /\ carries_nothing (eval (invoke fs ctx op) w)
       end.
Proof.
  destruct op; unfold exec, eval, invoke, bind.
  - rewrite Dirlist_run. after_Send.
  - rewrite Open_run. after_Send.
  - rewrite RemoveFile_run. after_call.
  - rewrite Truncate_run. after_call.
  - rewrite Stat_run. after_Send.
  - rewrite VirtualStat_run. after_Send.
  - rewrite Mkdir_run. after_call.
  - rewrite MkdirAll_run. after_call.
  - rewrite RemoveDir_run. after_call.
  - rewrite Rename_run. after_call.
  - rewrite Chmod_run. after_call.
Qed.

Lemma decoded_no_error (fs : fileSystemPtr) (x : Exchange) :
  returned_error (decoded fs x) = None.
Proof.
  destruct x as [cli ctx k req resp err | cli ctx req ack err].
  - destruct k; reflexivity.
  - reflexivity.
Qed.

(** An operation leaves the [fileSystem] objects as they were. *)
Lemma invoke_objects (fs : fileSystemPtr) (ctx : context_Context)
    (op : Operation) (w : World) :
  objects (exec (invoke fs ctx op) w) = objects w
  /\ next_object (exec (invoke fs ctx op) w) = next_object w.
Proof.
  destruct (invoke_run fs ctx op w) as (x & st & Hw & _).
  rewrite Hw.
  split; reflexivity.
Qed.

(** What an operation returns is fixed by the client that [fs] holds and by
    the state behind that client. *)
Lemma invoke_eval_client (fs : fileSystemPtr) (ctx : context_Context)
    (op : Operation) (w w' : World) :
  c (objects w fs) = c (objects w' fs) ->
  clients w (c (objects w fs)) = clients w' (c (objects w' fs)) ->
  eval (invoke fs ctx op) w = eval (invoke fs ctx op) w'.
Proof.
  intros Hc Hs.
  destruct op; unfold eval, invoke, bind;
    rewrite ?Dirlist_run, ?Open_run, ?RemoveFile_run, ?Truncate_run,
      ?Stat_run, ?VirtualStat_run, ?Mkdir_run, ?MkdirAll_run,
      ?RemoveDir_run, ?Rename_run, ?Chmod_run;
    unfold Send_error, Send_response, call_error;
    rewrite Hs; try reflexivity;
    destruct (snd (fst (Send_answer _ _ _ _ _))); reflexivity.
Qed.

(** ** Errors *)

(** C4, as the code has it. Every operation makes one exchange. When the
    exchange reports no error the operation returns what was decoded from
    the response, with a nil error. When it reports an error the operation
    returns that error with a value that carries nothing of the response:
    a nil slice, a nil File, and for Stat and VirtualStat the zero value of
    the record. *)
Theorem result_is_exclusive (fs : fileSystemPtr) (ctx : context_Context)
    (op : Operation) (w : World) :
  let r := eval (invoke fs ctx op) w in
  exists x : Exchange,
    wire (exec (invoke fs ctx op) w) = wire w ++ [x]
    /\ match exchange_error x with
       | None => r = decoded fs x /\ returned_error r = None
       | Some e => returned_error r = Some e /\ carries_nothing r
       end.
Proof.
  intro r.
  destruct (invoke_run fs ctx op w) as (x & st & Hw & Hr).
  exists x.
  split.
  - rewrite Hw.
    apply wire_exchanged.
  - fold r in Hr.
    destruct (exchange_error x) as [e |].
    + exact Hr.
    + split; [exact Hr |].
      rewrite Hr.
      apply decoded_no_error.
Qed.

(** C5. Every operation makes exactly one exchange, and when the
    transport reports a cancellation error in that exchange, the operation
    returns that error, and the value beside it carries nothing: no
    entries from Dirlist, no File from Open, the zero value from Stat and
    from VirtualStat. *)
Theorem cancellation_returns_error_only (fs : fileSystemPtr)
    (ctx : context_Context) (op : Operation) (w : World) :
  exists x : Exchange,
    wire (exec (invoke fs ctx op) w) = wire w ++ [x]
    /\ (forall e : GoError,
          exchange_error x = Some e ->
          is_cancellation e = true ->
          returned_error (eval (invoke fs ctx op) w) = Some e
          /\ carries_nothing (eval (invoke fs ctx op) w)).
Proof.
  destruct (invoke_run fs ctx op w) as (x & st & Hw & Hr).
  exists x.
  split.
  - rewrite Hw.
    apply wire_exchanged.
  - intros e He _.
    rewrite He in Hr.
    exact Hr.
Qed.

(** C6. The error an operation returns is the error of the one exchange it
    made, as the transport reported it: an error when the transport
    reported one, nil when it reported none. *)
Theorem error_surfaces_unchanged (fs : fileSystemPtr)
    (ctx : context_Context) (op : Operation) (w : World) :
  exists x : Exchange,
    wire (exec (invoke fs ctx op) w) = wire w ++ [x]
    /\ returned_error (eval (invoke fs ctx op) w) = exchange_error x.
Proof.
  destruct (invoke_run fs ctx op w) as (x & st & Hw & Hr).
  exists x.
  split.
  - rewrite Hw.
    apply wire_exchanged.
  - destruct (exchange_error x) as [e |].
    + apply Hr.
    + rewrite Hr.
      apply decoded_no_error.
Qed.

(** C10. On the error branch the values are fixed: with the error the
    transport reported, Dirlist returns a nil slice, Open a nil File, Stat
    the zero [EntryStat] and VirtualStat the zero [VirtualFSStat]. *)
Theorem error_branch_values (fs : fileSystemPtr) (ctx : context_Context)
    (path : string) (mode : xrdfs.OpenMode) (options : xrdfs.OpenOptions)
    (w : World) (e : GoError) :
  let cli := c (objects w fs) in
  (Send_error w cli ctx DirlistSink (zero : dirlist.Response)
     (ReqDirlist (dirlist.NewRequest path)) = Some e ->
   eval (Dirlist fs ctx path) w = (None, Some e))
  /\ (Send_error w cli ctx OpenSink (zero : open.Response)
        (ReqOpen (open.NewRequest path mode options)) = Some e ->
      eval (Open fs ctx path mode options) w = (None, Some e))
  /\ (Send_error w cli ctx StatDefaultSink (zero : stat.DefaultResponse)
        (ReqStat {| stat.Path := path; stat.Options := 0 |}) = Some e ->
      eval (Stat fs ctx path) w = (zero, Some e))
  /\ (Send_error w cli ctx StatVirtualFSSink (zero : stat.VirtualFSResponse)
        (ReqStat {| stat.Path := path; stat.Options := stat.OptionsVFS |})
        = Some e ->
      eval (VirtualStat fs ctx path) w = (zero, Some e)).
Proof.
  intro cli.
  unfold eval.
  rewrite Dirlist_run, Open_run, Stat_run, VirtualStat_run.
  fold cli.
  repeat split; intro H; rewrite H; reflexivity.
Qed.

(** ** The facade keeps no state *)

(** C9. A [fileSystem] is its one field, the client it points to, and
    [FS] builds it from the client. No operation writes to a [fileSystem]
    object, the receiver included, or makes a new one; and what an
    operation returns is fixed by the state behind the client the receiver
    holds, so nothing is carried from one call to the next by the
    facade. *)
Theorem fileSystem_is_never_written (fs : fileSystemPtr)
    (ctx : context_Context) (op : Operation) (w w' : World)
    (cli : ClientPtr) (o : fileSystem) :
  o = {| c := c o |}
  /\ objects (exec (Client_FS cli) w) (eval (Client_FS cli) w) = {| c := cli |}
  /\ objects (exec (invoke fs ctx op) w) = objects w
  /\ next_object (exec (invoke fs ctx op) w) = next_object w
  /\ (c (objects w fs) = c (objects w' fs) ->
      clients w (c (objects w fs)) = clients w' (c (objects w' fs)) ->
      eval (invoke fs ctx op) w = eval (invoke fs ctx op) w').
Proof.
  split; [| split; [| split; [| split]]].
  - destruct o.
    reflexivity.
  - unfold exec, eval, Client_FS, store.
    cbn [fst snd objects].
    rewrite Nat.eqb_refl.
    reflexivity.
  - apply invoke_objects.
  - apply invoke_objects.
  - apply invoke_eval_client.
Qed.

End Properties.

(** * Composition *)

Section Composition.

Context {P : Packages} {T : Transport}.

(** The exchange an operation makes goes through the client that the
    receiver holds and carries the context of the call. *)
Lemma invoke_exchange (fs : fileSystemPtr) (ctx : context_Context)
    (op : Operation) (w : World) :
  exists (x : Exchange) (st : ClientState),
    exec (invoke fs ctx op) w = exchanged w (c (objects w fs)) st x
    /\ exchange_client x = c (objects w fs)
    /\ exchange_context x = ctx
    /\ returned_error (eval (invoke fs ctx op) w) = exchange_error x.
Proof.
  destruct op; unfold exec, eval, invoke, bind;
    rewrite ?Dirlist_run, ?Open_run, ?RemoveFile_run, ?Truncate_run,
      ?Stat_run, ?VirtualStat_run, ?Mkdir_run, ?MkdirAll_run,
      ?RemoveDir_run, ?Rename_run, ?Chmod_run;
    try match goal with
    | |- context [Send_error ?w ?cli ?ctx ?k ?z ?r] =>
        destruct (Send_error w cli ctx k z r) eqn:E
    end;
    do 2 eexists;
    (split; [reflexivity | split; [reflexivity | split; [reflexivity |]]]);
    cbn [exchange_error Send_exchange call_exchange fst];
    rewrite ?E;
    reflexivity.
Qed.

(** X1. A sequence of calls makes one exchange per call, in the order of
    the calls: the k-th new exchange carries the context of the k-th call
    and its error is the error the k-th call returned. An error in one
    call neither stops nor adds to the exchanges of the calls after it,
    and no [fileSystem] object changes on the way. *)
Theorem invoke_each_one_exchange_per_call (calls : list Invocation)
    (w : World) :
  exists xs : list Exchange,
    wire (exec (invoke_each calls) w) = wire w ++ xs
    /\ map exchange_context xs = map under calls
    /\ map exchange_client xs = map (fun i => c (objects w (on i))) calls
    /\ map exchange_error xs =
       map returned_error (eval (invoke_each calls) w)
    /\ objects (exec (invoke_each calls) w) = objects w.
Proof.
  revert w.
  induction calls as [| i rest IH]; intro w.
  - exists [].
    cbn.
    rewrite app_nil_r.
    repeat split.
  - destruct (invoke_exchange (on i) (under i) (what i) w)
      as (x & st & Hrun & Hcli & Hctx & Herr).
    unfold exec, eval in Hrun, Herr.
    destruct (invoke (on i) (under i) (what i) w) as [r w1] eqn:Hinv.
    cbn [fst snd] in Hrun, Herr.
    destruct (IH w1) as (xs & Hwire & Hctxs & Hclis & Herrs & Hobj).
    unfold exec, eval in Hwire, Herrs, Hobj.
    destruct (invoke_each rest w1) as [rs w2] eqn:Hrest.
    cbn [fst snd] in Hwire, Herrs, Hobj.
    assert (Hall : invoke_each (i :: rest) w = (r :: rs, w2)).
    { cbn [invoke_each].
      unfold bind.
      rewrite Hinv, Hrest.
      reflexivity. }
    exists (x :: xs).
    unfold exec, eval.
    rewrite Hall.
    cbn [fst snd map].
    rewrite Hwire, Hobj, Hctxs, Hclis, Herrs, Hcli, Hctx, Herr, Hrun.
    rewrite wire_exchanged, <- app_assoc.
    repeat split.
Qed.

(** X2. Two facades that hold the same client are interchangeable: the
    same call through either leaves the same world, the wire included,
    and returns the same, except that the File Open returns names the
    facade it came from. *)
Theorem facades_on_one_client_agree (fs1 fs2 : fileSystemPtr)
    (ctx : context_Context) (op : Operation) (w : World) :
  c (objects w fs1) = c (objects w fs2) ->
  exec (invoke fs1 ctx op) w = exec (invoke fs2 ctx op) w
  /\ match op with
     | OpOpen path mode options =>
         match eval (invoke fs1 ctx op) w, eval (invoke fs2 ctx op) w with
         | RetFile (Some f1) e1, RetFile (Some f2) e2 =>
             file_fs f1 = fs1 /\ file_fs f2 = fs2
             /\ file_handle f1 = file_handle f2
             /\ file_compression f1 = file_compression f2
             /\ file_info f1 = file_info f2
             /\ e1 = e2
         | r1, r2 => r1 = r2
         end
     | _ => eval (invoke fs1 ctx op) w = eval (invoke fs2 ctx op) w
     end.
Proof.
  intro Hc.
  destruct op; unfold exec, eval, invoke, bind;
    rewrite ?Dirlist_run, ?Open_run, ?RemoveFile_run, ?Truncate_run,
      ?Stat_run, ?VirtualStat_run, ?Mkdir_run, ?MkdirAll_run,
      ?RemoveDir_run, ?Rename_run, ?Chmod_run;
    rewrite Hc;
    try (split; reflexivity);
    destruct (Send_error _ _ _ _ _ _); cbn; repeat split.
Qed.

End Composition.

(** * Decoding a vector *)

Section DecodeVectorFacts.

Import rootio.

Context {A : Type} {F : Fixed A}.

(** Enough bytes: [io.ReadFull] takes the first [n] and leaves the rest. *)
Lemma io_ReadFull_enough (bs rest : list byte) :
  io_ReadFull (List.length bs) (bs ++ rest) = ((bs, None), rest).
Proof.
  destruct bs as [| b bs].
  - reflexivity.
  - change (List.length (b :: bs)) with (S (List.length bs)).
    cbn [io_ReadFull app].
    replace (Nat.ltb (List.length (b :: bs ++ rest)) (S (List.length bs)))
      with false.
    + change (b :: bs ++ rest) with ((b :: bs) ++ rest).
      change (S (List.length bs)) with (List.length (b :: bs)).
      rewrite firstn_app, Nat.sub_diag, firstn_all, firstn_O, app_nil_r.
      rewrite skipn_app, Nat.sub_diag, skipn_all.
      reflexivity.
    + symmetry.
      apply Nat.ltb_ge.
      cbn [List.length].
      rewrite length_app.
      lia.
Qed.

(** Too few bytes: the buffer is drained, and the error tells an empty
    buffer from a short one. *)
Lemma io_ReadFull_short (n : nat) (b : Buffer) :
  List.length b < n ->
  exists got : list byte,
    io_ReadFull n b =
    ((got, Some match b with [] => io_EOF | _ :: _ => io_ErrUnexpectedEOF end),
     []).
Proof.
  intro Hlt.
  destruct n as [| n]; [lia |].
  destruct b as [| x b].
  - exists []. reflexivity.
  - exists (x :: b).
    cbn [io_ReadFull].
    apply Nat.ltb_lt in Hlt.
    rewrite Hlt.
    reflexivity.
Qed.

Lemma read_elems_length (k : nat) (bs : list byte) :
  List.length (read_elems (A := A) k bs) = k.
Proof.
  revert bs.
  induction k as [| k IH]; intro bs.
  - reflexivity.
  - cbn [read_elems List.length].
    rewrite IH.
    reflexivity.
Qed.

(** The count of a buffer that holds the header and the four bytes of the
    count. *)
Lemma header_and_count (header count tail : list byte) :
  List.length header = 6 ->
  List.length count = 4 ->
  binary_Read_int32 0 (snd (Buffer_Next 6 (header ++ count ++ tail))) =
  ((int32 (BigEndian_Uint32 count), None), tail).
Proof.
  intros Hh Hc.
  unfold Buffer_Next, binary_Read_int32.
  cbn [snd].
  rewrite skipn_app, <- Hh, Nat.sub_diag, skipn_all.
  cbn [app skipn].
  rewrite <- Hc, io_ReadFull_enough.
  reflexivity.
Qed.

(** DecodeVector over the four cases of its input: no count, a count out
    of range, too few bytes for the elements, and enough of them. *)
Lemma DecodeVector_cases (in_ : Buffer) (dst : Slice A) :
  let tail := skipn 10 in_ in
  let n := int32 (BigEndian_Uint32 (firstn 4 (skipn 6 in_))) in
  let k := size * Z.to_nat n in
  DecodeVector in_ dst =
  if Nat.ltb (List.length in_) 10
  then Return (-1)
         (Some (if Nat.leb (List.length in_) 6 then io_EOF
                else io_ErrUnexpectedEOF))
         [] dst
  else if ((n <? 0) || (Z.of_nat (cap dst) <? n))%Z%bool
  then Panic tail
  else if Nat.ltb (List.length tail) k
  then Return (-1)
         (Some match tail with [] => io_EOF | _ :: _ => io_ErrUnexpectedEOF end)
         [] dst
  else Return n None (skipn k tail)
         {| array := read_elems (Z.to_nat n) (firstn k tail)
                       ++ skipn (Z.to_nat n) (array dst);
            len := len dst |}.
Proof.
  intros tail n k.
  destruct (Nat.ltb_spec (List.length in_) 10) as [Hshort | Hlong].
  - unfold DecodeVector, Buffer_Next, binary_Read_int32.
    destruct (io_ReadFull_short 4 (skipn 6 in_)) as (got & Hgot).
    { rewrite length_skipn. lia. }
    rewrite Hgot.
    destruct (Nat.leb_spec (List.length in_) 6) as [Hle | Hgt].
    + replace (skipn 6 in_) with (@nil byte).
      * reflexivity.
      * symmetry.
        apply length_zero_iff_nil.
        rewrite length_skipn.
        lia.
    + destruct (skipn 6 in_) as [| b tl] eqn:Hs.
      * apply (f_equal (@List.length byte)) in Hs.
        rewrite length_skipn in Hs.
        cbn in Hs.
        lia.
      * reflexivity.
  - assert (Hsplit : in_ = firstn 6 in_ ++ firstn 4 (skipn 6 in_) ++ tail).
    { unfold tail.
      replace (skipn 10 in_) with (skipn 4 (skipn 6 in_))
        by (rewrite skipn_skipn; reflexivity).
      rewrite !firstn_skipn.
      reflexivity. }
    assert (Hh : List.length (firstn 6 in_) = 6).
    { rewrite length_firstn. lia. }
    assert (Hc : List.length (firstn 4 (skipn 6 in_)) = 4).
    { rewrite length_firstn, length_skipn. lia. }
    pose proof (header_and_count _ _ tail Hh Hc) as Hread.
    rewrite <- Hsplit in Hread.
    unfold DecodeVector.
    destruct (Buffer_Next 6 in_) as [x in1].
    cbn [snd] in Hread.
    rewrite Hread.
    fold n.
    unfold reflect_Slice.
    destruct ((n <? 0) || (Z.of_nat (cap dst) <? n))%Z%bool; [reflexivity |].
    unfold binary_Read_slice.
    cbn [len array].
    fold k.
    destruct (Nat.ltb_spec (List.length tail) k) as [Hfew | Hall].
    + destruct (io_ReadFull_short k tail Hfew) as (got & Hgot).
      rewrite Hgot.
      reflexivity.
    + rewrite <- (firstn_skipn k tail) at 1.
      replace k with (List.length (firstn k tail)) at 1
        by (rewrite length_firstn; lia).
      rewrite io_ReadFull_enough.
      reflexivity.
Qed.

(** A buffer that holds a six-byte header, a count in range and the bytes
    of that many elements. *)
Lemma DecodeVector_framed (header count payload rest : list byte)
    (dst : Slice A) :
  let n := int32 (BigEndian_Uint32 count) in
  List.length header = 6 ->
  List.length count = 4 ->
  (0 <= n <= Z.of_nat (cap dst))%Z ->
  List.length payload = size * Z.to_nat n ->
  DecodeVector (header ++ count ++ payload ++ rest) dst =
  Return n None rest
    {| array := read_elems (Z.to_nat n) payload
                  ++ skipn (Z.to_nat n) (array dst);
       len := len dst |}.
Proof.
  intros n Hh Hc Hn Hp.
  unfold DecodeVector.
  pose proof (header_and_count header count (payload ++ rest) Hh Hc) as Hread.
  destruct (Buffer_Next 6 (header ++ count ++ payload ++ rest)) as [x in1].
  cbn [snd] in Hread.
  rewrite Hread.
  fold n.
  unfold reflect_Slice.
  replace ((n <? 0) || (Z.of_nat (cap dst) <? n))%Z%bool with false.
  - unfold binary_Read_slice.
    cbn [len array].
    rewrite <- Hp, io_ReadFull_enough.
    reflexivity.
  - symmetry.
    apply Bool.orb_false_iff.
    split; apply Z.ltb_ge; lia.
Qed.

(** The [i]-th element read is the value of the [i]-th group of [size]
    bytes. *)
Lemma read_elems_nth_error (k : nat) (bs : list byte) (i : nat) :
  i < k ->
  nth_error (read_elems (A := A) k bs) i =
  Some (decode (firstn size (skipn (i * size) bs))).
Proof.
  revert bs i.
  induction k as [| k IH]; intros bs i Hi.
  - lia.
  - destruct i as [| i].
    + reflexivity.
    + cbn [read_elems nth_error].
      rewrite IH by lia.
      rewrite skipn_skipn.
      replace (S i * size) with (i * size + size) by lia.
      reflexivity.
Qed.

(** X3. A buffer that holds a six-byte header, a count [n] between 0 and
    the capacity of [dst], and the bytes of [n] elements: DecodeVector
    returns [n] and no error and leaves the buffer just behind the
    elements. Cell [i] of the array of [dst] then holds the value of the
    [i]-th group of bytes for every [i] below [n]; the cells from [n] on
    keep their values, and the length of [dst] is not changed, also when
    [n] is beyond it. *)
Theorem DecodeVector_decodes_front (header count payload rest : list byte)
    (dst : Slice A) :
  let n := int32 (BigEndian_Uint32 count) in
  List.length header = 6 ->
  List.length count = 4 ->
  (0 <= n <= Z.of_nat (cap dst))%Z ->
  List.length payload = size * Z.to_nat n ->
  exists d : Slice A,
    DecodeVector (header ++ count ++ payload ++ rest) dst =
      Return n None rest d
    /\ len d = len dst
    /\ (forall i : nat, i < Z.to_nat n ->
        nth_error (array d) i =
        Some (decode (firstn size (skipn (i * size) payload))))
    /\ (forall i : nat, Z.to_nat n <= i ->
        nth_error (array d) i = nth_error (array dst) i).
Proof.
  intros n Hh Hc Hn Hp.
  eexists.
  split; [apply DecodeVector_framed; assumption |].
  fold n.
  cbn [array len].
  split; [reflexivity |].
  split.
  - intros i Hi.
    rewrite nth_error_app1 by (rewrite read_elems_length; exact Hi).
    apply read_elems_nth_error.
    exact Hi.
  - intros i Hi.
    rewrite nth_error_app2 by (rewrite read_elems_length; exact Hi).
    rewrite read_elems_length, nth_error_skipn.
    f_equal.
    lia.
Qed.

(** X4. A buffer of fewer than ten bytes holds no count: DecodeVector
    returns -1 and an error, [io.EOF] when nothing follows the six bytes
    of the header and [io.ErrUnexpectedEOF] when one to three bytes do. The
    buffer is drained and [dst] is as it was. *)
Theorem DecodeVector_no_count (in_ : Buffer) (dst : Slice A) :
  List.length in_ < 10 ->
  DecodeVector in_ dst =
  Return (-1)
    (Some (if Nat.leb (List.length in_) 6 then io_EOF
           else io_ErrUnexpectedEOF))
    [] dst.
Proof.
  intro Hlen.
  unfold DecodeVector, Buffer_Next, binary_Read_int32.
  destruct (io_ReadFull_short 4 (skipn 6 in_)) as (got & Hgot).
  { rewrite length_skipn. lia. }
  rewrite Hgot.
  destruct (Nat.leb_spec (List.length in_) 6) as [Hle | Hgt].
  - replace (skipn 6 in_) with (@nil byte).
    + reflexivity.
    + symmetry.
      apply length_zero_iff_nil.
      rewrite length_skipn.
      lia.
  - destruct (skipn 6 in_) as [| b tl] eqn:Hs.
    + apply (f_equal (@List.length byte)) in Hs.
      rewrite length_skipn in Hs.
      cbn in Hs.
      lia.
    + reflexivity.
Qed.

(** X5. The count is there but the bytes of the elements are not all
    there: DecodeVector returns -1 and an error, [io.EOF] when no byte
    follows the count and [io.ErrUnexpectedEOF] otherwise. The buffer is
    drained, and no element is stored: [dst] is as it was. *)
Theorem DecodeVector_truncated (header count tail : list byte)
    (dst : Slice A) :
  let n := int32 (BigEndian_Uint32 count) in
  List.length header = 6 ->
  List.length count = 4 ->
  (0 <= n <= Z.of_nat (cap dst))%Z ->
  List.length tail < size * Z.to_nat n ->
  DecodeVector (header ++ count ++ tail) dst =
  Return (-1)
    (Some match tail with [] => io_EOF | _ :: _ => io_ErrUnexpectedEOF end)
    [] dst.
Proof.
  intros n Hh Hc Hn Ht.
  unfold DecodeVector.
  pose proof (header_and_count header count tail Hh Hc) as Hread.
  destruct (Buffer_Next 6 (header ++ count ++ tail)) as [x in1].
  cbn [snd] in Hread.
  rewrite Hread.
  fold n.
  unfold reflect_Slice.
  replace ((n <? 0) || (Z.of_nat (cap dst) <? n))%Z%bool with false.
  - unfold binary_Read_slice.
    cbn [len array].
    destruct (io_ReadFull_short (size * Z.to_nat n) tail Ht) as (got & Hgot).
    rewrite Hgot.
    reflexivity.
  - symmetry.
    apply Bool.orb_false_iff.
    split; apply Z.ltb_ge; lia.
Qed.

(** X6. DecodeVector panics exactly when the buffer holds a count and the
    count is negative or beyond the capacity of [dst]; the buffer then
    stands just behind the count. *)
Theorem DecodeVector_panics_iff (in_ : Buffer) (dst : Slice A) (rest : Buffer) :
  let n := int32 (BigEndian_Uint32 (firstn 4 (skipn 6 in_))) in
  DecodeVector in_ dst = Panic rest <->
  10 <= List.length in_
  /\ (n < 0 \/ Z.of_nat (cap dst) < n)%Z
  /\ rest = skipn 10 in_.
Proof.
  intro n.
  rewrite DecodeVector_cases.
  fold n.
  destruct (Nat.ltb_spec (List.length in_) 10) as [Hshort | Hlong].
  - split.
    + discriminate.
    + intros (Hlen & _).
      lia.
  - destruct ((n <? 0) || (Z.of_nat (cap dst) <? n))%Z%bool eqn:Hb.
    + apply Bool.orb_true_iff in Hb.
      rewrite !Z.ltb_lt in Hb.
      split.
      * intro H.
        injection H as <-.
        auto.
      * intros (_ & _ & ->).
        reflexivity.
    + apply Bool.orb_false_iff in Hb.
      rewrite !Z.ltb_ge in Hb.
      split.
      * destruct (Nat.ltb _ _); discriminate.
      * intros (_ & Hn & _).
        lia.
Qed.

(** X7. The two results of DecodeVector go together. With no error the
    count is between 0 and the capacity, exactly ten bytes and the bytes
    of that many elements were taken from the buffer, and [dst] keeps its
    length, its capacity and every cell behind the count. With an error
    the count is -1, the buffer is drained and [dst] is as it was. *)
Theorem DecodeVector_count_or_error (in_ rest : Buffer) (dst d : Slice A)
    (n : Z) (err : option io_error) :
  DecodeVector in_ dst = Return n err rest d ->
  match err with
  | None =>
      (0 <= n <= Z.of_nat (cap dst))%Z
      /\ List.length in_ = 10 + size * Z.to_nat n + List.length rest
      /\ len d = len dst
      /\ cap d = cap dst
      /\ skipn (Z.to_nat n) (array d) = skipn (Z.to_nat n) (array dst)
  | Some _ => n = (-1)%Z /\ rest = [] /\ d = dst
  end.
Proof.
  rewrite DecodeVector_cases.
  set (m := int32 (BigEndian_Uint32 (firstn 4 (skipn 6 in_)))).
  set (k := size * Z.to_nat m).
  destruct (Nat.ltb_spec (List.length in_) 10) as [Hshort | Hlong].
  - intro H.
    injection H as <- <- <- <-.
    auto.
  - destruct ((m <? 0) || (Z.of_nat (cap dst) <? m))%Z%bool eqn:Hb;
      [discriminate |].
    apply Bool.orb_false_iff in Hb.
    rewrite !Z.ltb_ge in Hb.
    assert (Htl : List.length (skipn 10 in_) = List.length in_ - 10)
      by apply length_skipn.
    remember (skipn 10 in_) as tl eqn:Etl.
    clear Etl.
    destruct (Nat.ltb_spec (List.length tl) k) as [Hfew | Hall].
    + intro H.
      injection H as <- <- <- <-.
      auto.
    + intro H.
      injection H as <- <- <- <-.
      assert (Hm : Z.to_nat m <= cap dst) by lia.
      unfold cap in *.
      cbn [array len].
      rewrite !length_skipn.
      rewrite length_app, read_elems_length, length_skipn.
      rewrite skipn_app, read_elems_length, Nat.sub_diag.
      rewrite (skipn_all2 (read_elems (Z.to_nat m) _))
        by (rewrite read_elems_length; lia).
      repeat split; try lia.
Qed.

(** X8. What the six bytes of the header hold is of no account: two
    buffers that differ in them only are decoded alike. *)
Theorem DecodeVector_ignores_header (h1 h2 body : list byte) (dst : Slice A) :
  List.length h1 = 6 ->
  List.length h2 = 6 ->
  DecodeVector (h1 ++ body) dst = DecodeVector (h2 ++ body) dst.
Proof.
  intros H1 H2.
  unfold DecodeVector, Buffer_Next.
  rewrite !skipn_app.
  rewrite (skipn_all2 h1), (skipn_all2 h2) by lia.
  rewrite H1, H2.
  reflexivity.
Qed.

End DecodeVectorFacts.

(** ** Vectors of [int32] *)

Section Int32Vectors.

Import rootio.

(** A value below [2 ^ k] and a value shifted left by [k] have no bit in
    common: their [lor] is their sum. *)
Lemma lor_shiftl_add (a b k : Z) :
  (0 <= a < 2 ^ k)%Z -> (0 <= k)%Z ->
  Z.lor a (Z.shiftl b k) = (a + b * 2 ^ k)%Z.
Proof.
  intros Ha Hk.
  assert (Hland : Z.land a (Z.shiftl b k) = 0%Z).
  { apply Z.bits_inj'.
    intros n Hn.
    rewrite Z.land_spec, Z.bits_0.
    destruct (Z.lt_ge_cases n k) as [Hlow | Hhigh].
    - rewrite (Z.shiftl_spec_low b k n Hlow).
      apply Bool.andb_false_r.
    - replace (Z.testbit a n) with false; [reflexivity |].
      symmetry.
      destruct (Z.eq_dec a 0) as [-> | Hne].
      + apply Z.bits_0.
      + apply Z.bits_above_log2; [lia |].
        apply Z.lt_le_trans with k; [| exact Hhigh].
        apply Z.log2_lt_pow2; lia. }
  pose proof (Z.add_lor_land a (Z.shiftl b k)) as Hadd.
  rewrite Hland, Z.add_0_r in Hadd.
  rewrite Hadd, Z.shiftl_mul_pow2 by exact Hk.
  reflexivity.
Qed.

Lemma byte_val_to_byte (z : Z) : byte_val (to_byte z) = (z mod 256)%Z.
Proof.
  unfold byte_val, to_byte.
  pose proof (Z.mod_pos_bound z 256 ltac:(lia)) as Hb.
  destruct (Byte.of_N (Z.to_N (z mod 256))) as [b |] eqn:E.
  - apply Byte.to_of_N in E.
    rewrite E.
    apply Z2N.id.
    lia.
  - apply Byte.of_N_None_iff in E.
    lia.
Qed.

(** Reading the four bytes back gives the value modulo [2 ^ 32]. *)
Lemma Uint32_PutUint32 (z : Z) :
  BigEndian_Uint32 (BigEndian_PutUint32 z) = (z mod 2 ^ 32)%Z.
Proof.
  unfold BigEndian_Uint32, BigEndian_PutUint32.
  rewrite !byte_val_to_byte.
  rewrite !Z.shiftr_div_pow2 by lia.
  set (r0 := (z mod 256)%Z).
  set (r1 := ((z / 2 ^ 8) mod 256)%Z).
  set (r2 := ((z / 2 ^ 16) mod 256)%Z).
  set (r3 := ((z / 2 ^ 24) mod 256)%Z).
  assert (H0 : (0 <= r0 < 256)%Z) by (apply Z.mod_pos_bound; lia).
  assert (H1 : (0 <= r1 < 256)%Z) by (apply Z.mod_pos_bound; lia).
  assert (H2 : (0 <= r2 < 256)%Z) by (apply Z.mod_pos_bound; lia).
  assert (H3 : (0 <= r3 < 256)%Z) by (apply Z.mod_pos_bound; lia).
  rewrite (lor_shiftl_add r0 r1 8) by (cbn; lia).
  rewrite (lor_shiftl_add _ r2 16) by (cbn; lia).
  rewrite (lor_shiftl_add _ r3 24) by (cbn; lia).
  subst r0 r1 r2 r3.
  change (2 ^ 8)%Z with 256%Z.
  change (2 ^ 16)%Z with 65536%Z.
  change (2 ^ 24)%Z with 16777216%Z.
  change (2 ^ 32)%Z with 4294967296%Z.
  clear H0 H1 H2 H3.
  Z.to_euclidean_division_equations.
  lia.
Qed.

Lemma int32_PutUint32 (z : Z) :
  (- 2 ^ 31 <= z < 2 ^ 31)%Z ->
  int32 (BigEndian_Uint32 (BigEndian_PutUint32 z)) = z.
Proof.
  intro Hz.
  rewrite Uint32_PutUint32.
  unfold int32.
  change (2 ^ 31)%Z with 2147483648%Z in *.
  change (2 ^ 32)%Z with 4294967296%Z in *.
  destruct (Z.ltb_spec (z mod 4294967296) 2147483648);
    Z.to_euclidean_division_equations; lia.
Qed.

Lemma flat_map_PutUint32_length (vs : list Z) :
  List.length (flat_map BigEndian_PutUint32 vs) = 4 * List.length vs.
Proof.
  induction vs as [| v vs IH].
  - reflexivity.
  - cbn [flat_map].
    rewrite length_app, IH.
    cbn [BigEndian_PutUint32 List.length].
    lia.
Qed.

Lemma read_elems_PutUint32 (vs : list Z) :
  Forall (fun v => - 2 ^ 31 <= v < 2 ^ 31)%Z vs ->
  read_elems (List.length vs) (flat_map BigEndian_PutUint32 vs) = vs.
Proof.
  induction 1 as [| v vs Hv Hvs IH].
  - reflexivity.
  - cbn [List.length read_elems flat_map size int32_Fixed decode].
    change (firstn 4 (BigEndian_PutUint32 v ++ flat_map BigEndian_PutUint32 vs))
      with (BigEndian_PutUint32 v).
    change (skipn 4 (BigEndian_PutUint32 v ++ flat_map BigEndian_PutUint32 vs))
      with (flat_map BigEndian_PutUint32 vs).
    rewrite int32_PutUint32 by exact Hv.
    f_equal.
    exact IH.
Qed.

(** X9. Round trip for [int32] elements. From a buffer that a big-endian
    writer filled with a header of six bytes, the count and the values,
    DecodeVector returns the count, stores the values in order at the
    front of [dst], and leaves what follows the vector in the buffer. *)
Theorem DecodeVector_round_trip_int32 (header rest : list byte)
    (vs : list Z) (dst : Slice Z) :
  List.length header = 6 ->
  Forall (fun v => - 2 ^ 31 <= v < 2 ^ 31)%Z vs ->
  List.length vs <= cap dst ->
  (Z.of_nat (List.length vs) < 2 ^ 31)%Z ->
  DecodeVector (encode_int32_vector header vs ++ rest) dst =
  Return (Z.of_nat (List.length vs)) None rest
    {| array := vs ++ skipn (List.length vs) (array dst);
       len := len dst |}.
Proof.
  intros Hh Hvs Hcap Hn.
  unfold encode_int32_vector.
  rewrite <- !app_assoc.
  assert (Hcount :
    int32 (BigEndian_Uint32 (BigEndian_PutUint32 (Z.of_nat (List.length vs))))
    = Z.of_nat (List.length vs)).
  { apply int32_PutUint32. lia. }
  rewrite (DecodeVector_framed header
             (BigEndian_PutUint32 (Z.of_nat (List.length vs)))
             (flat_map BigEndian_PutUint32 vs) rest dst Hh);
    rewrite ?Hcount, ?Nat2Z.id.
  - rewrite read_elems_PutUint32 by exact Hvs.
    reflexivity.
  - reflexivity.
  - lia.
  - rewrite flat_map_PutUint32_length.
    reflexivity.
Qed.

End Int32Vectors.

(** * Drawing a histogram *)

Section HplotFacts.

Import hplot.

Context {E : Env}.

(** One bit of the style: the mask keeps it or gives 0. *)
Lemma land_one_bit (style i : Z) :
  (0 <= i)%Z ->
  Z.land style (Z.shiftl 1 i) =
  if Z.testbit style i then (2 ^ i)%Z else 0%Z.
Proof.
  intro Hi.
  rewrite Z.shiftl_1_l.
  apply Z.bits_inj'.
  intros n Hn.
  rewrite Z.land_spec, Z.pow2_bits_eqb by exact Hi.
  destruct (Z.eqb_spec i n) as [-> | Hne].
  - rewrite Bool.andb_true_r.
    destruct (Z.testbit style n) eqn:Hb.
    + rewrite Z.pow2_bits_true by exact Hn.
      reflexivity.
    + rewrite Z.bits_0.
      reflexivity.
  - rewrite Bool.andb_false_r.
    destruct (Z.testbit style i).
    + rewrite Z.pow2_bits_false by congruence.
      reflexivity.
    + rewrite Z.bits_0.
      reflexivity.
Qed.

Lemma pow2_eqb (i k : Z) :
  (0 <= i)%Z -> (0 <= k)%Z ->
  Z.eqb (2 ^ i) (2 ^ k) = Z.eqb i k.
Proof.
  intros Hi Hk.
  destruct (Z.eqb_spec i k) as [-> | Hne].
  - apply Z.eqb_refl.
  - apply Z.eqb_neq.
    intro Heq.
    apply Hne.
    apply (Z.pow_inj_r 2); lia.
Qed.

(** A round of the loop looks at bit [i] of the style: bits 1 to 4 add
    their entry, every other bit adds nothing. *)
Lemma info_case_bit (style : HInfoStyle) (hist : Hist_) (i : Z)
    (legend : histLegend) :
  (0 <= i)%Z ->
  info_case style hist i legend =
  if Z.testbit style i then
    if Z.eqb i 1 then Add legend "Entries" (Int64 (Entries hist))
    else if Z.eqb i 2 then Add legend "Mean" (Float64 (XMean hist))
    else if Z.eqb i 3 then Add legend "RMS" (Float64 (XRMS hist))
    else if Z.eqb i 4 then Add legend "Std Dev" (Float64 (XStdDev hist))
    else legend
  else legend.
Proof.
  intro Hi.
  unfold info_case.
  rewrite land_one_bit by exact Hi.
  destruct (Z.testbit style i).
  - unfold HInfoEntries, HInfoMean, HInfoRMS, HInfoStdDev.
    rewrite !Z.shiftl_1_l.
    rewrite !pow2_eqb by lia.
    reflexivity.
  - reflexivity.
Qed.

Lemma info_loop_S (style : HInfoStyle) (hist : Hist_) (i : Z) (todo : nat)
    (legend : histLegend) :
  info_loop style hist i (S todo) legend =
  info_loop style hist (i + 1) todo (info_case style hist i legend).
Proof. reflexivity. Qed.

(** From bit 5 on the loop adds nothing. *)
Lemma info_loop_high (style : HInfoStyle) (hist : Hist_) (todo : nat) :
  forall (i : Z) (legend : histLegend),
    (5 <= i)%Z ->
    info_loop style hist i todo legend = legend.
Proof.
  induction todo as [| todo IH]; intros i legend Hi.
  - reflexivity.
  - rewrite info_loop_S, IH by lia.
    rewrite info_case_bit by lia.
    destruct (Z.testbit style i); [| reflexivity].
    destruct (Z.eqb_spec i 1); [lia |].
    destruct (Z.eqb_spec i 2); [lia |].
    destruct (Z.eqb_spec i 3); [lia |].
    destruct (Z.eqb_spec i 4); [lia |].
    reflexivity.
Qed.

(** X10. The legend [Plot] draws. There is none for the style
    [HInfoNone] and none when the font cannot be made. Otherwise it is at
    the top and lists, in this order, "Entries" for bit 1 of the style,
    "Mean" for bit 2, "RMS" for bit 3 and "Std Dev" for bit 4, each with
    its value as [Add] prints it; bit 0 and the bits from 5 on add
    nothing. *)
Theorem Plot_legend_entries (h : H1D) :
  let style := Style (Infos h) in
  let hist := Hist h in
  let entry_if (i : Z) (name str : string) :=
    if Z.testbit style i then [{| text := name; value := str |}] else [] in
  Plot_legend h =
  if Z.eqb style 0 then None
  else
    match vg_MakeFont with
    | None => None
    | Some fnt =>
        Some {| TextStyle_ := {| Font_ := fnt |};
                Top := true;
                ColWidth := Tick_Size;
                entries :=
                  entry_if 1%Z "Entries" (Sprintf_v (Entries hist))
                  ++ entry_if 2%Z "Mean" (Sprintf_g (XMean hist))
                  ++ entry_if 3%Z "RMS" (Sprintf_g (XRMS hist))
                  ++ entry_if 4%Z "Std Dev" (Sprintf_g (XStdDev hist)) |}
    end.
Proof.
  intros style hist entry_if.
  unfold Plot_legend, HInfoNone.
  fold style hist.
  destruct (Z.eqb style 0); [reflexivity |].
  destruct vg_MakeFont as [fnt |]; [| reflexivity].
  do 5 rewrite info_loop_S.
  cbn [Z.add Pos.add Pos.succ].
  rewrite info_loop_high by lia.
  rewrite !info_case_bit by lia.
  cbn [Z.eqb Pos.eqb].
  unfold entry_if.
  destruct (Z.testbit style 0), (Z.testbit style 1), (Z.testbit style 2),
    (Z.testbit style 3), (Z.testbit style 4); reflexivity.
Qed.

(** ** The outline *)

Section Outline.

Variables (h : H1D) (c : Canvas) (trX trY : float64 -> Length).

(** A round adds four points at the last index when that is not the
    first, and three points otherwise. *)
Lemma Plot_bin_length (bins : list Bin) (i : nat) (bin : Bin)
    (pts : list Point) :
  List.length (Plot_bin h c trX trY bins i bin pts) =
  List.length pts
  + (if (negb (Nat.eqb i 0) && Nat.eqb (S i) (List.length bins))%bool
     then 4 else 3).
Proof.
  unfold Plot_bin.
  destruct (yfct h c trY (SumW bin)) as [ymin ymax].
  destruct (Z.eqb_spec (Z.of_nat i) 0) as [H0 | H0].
  - replace (Nat.eqb i 0) with true by (symmetry; apply Nat.eqb_eq; lia).
    rewrite !length_app.
    reflexivity.
  - replace (Nat.eqb i 0) with false by (symmetry; apply Nat.eqb_neq; lia).
    cbn [negb andb].
    destruct (Z.eqb_spec (Z.of_nat i) (Z.of_nat (List.length bins) - 1))
      as [Hl | Hl].
    + replace (Nat.eqb (S i) (List.length bins)) with true
        by (symmetry; apply Nat.eqb_eq; lia).
      rewrite !length_app.
      reflexivity.
    + replace (Nat.eqb (S i) (List.length bins)) with false
        by (symmetry; apply Nat.eqb_neq; lia).
      rewrite !length_app.
      reflexivity.
Qed.

Lemma Plot_bins_length (bins : list Bin) :
  forall (left : list Bin) (i : nat) (pts : list Point),
    i + List.length left = List.length bins ->
    List.length (Plot_bins h c trX trY bins i left pts) =
    List.length pts + 3 * List.length left
    + (if (negb (Nat.eqb (List.length left) 0)
           && Nat.leb 2 (List.length bins))%bool
       then 1 else 0).
Proof.
  induction left as [| bin left IH]; intros i pts Hi.
  - cbn [Plot_bins List.length Nat.eqb negb andb].
    lia.
  - cbn [Plot_bins].
    cbn [List.length] in Hi.
    rewrite IH by lia.
    rewrite Plot_bin_length.
    cbn [List.length].
    change (Nat.eqb (S (List.length left)) 0) with false.
    destruct (Nat.eqb_spec i 0) as [H0 | H0];
      destruct (Nat.eqb_spec (S i) (List.length bins)) as [Hl | Hl];
      destruct (Nat.eqb_spec (List.length left) 0) as [He | He];
      destruct (Nat.leb_spec 2 (List.length bins)) as [H2 | H2];
      cbn [negb andb]; lia.
Qed.

(** X11. The number of points of the outline: none without bins, three
    for one bin, and three for every bin plus one that closes the outline
    for two bins or more. *)
Theorem Plot_pts_count :
  List.length (Plot_pts h c trX trY) =
  match List.length (Bins (Hist h)) with
  | 0 => 0
  | 1 => 3
  | S (S k) => 3 * S (S k) + 1
  end.
Proof.
  unfold Plot_pts.
  rewrite Plot_bins_length by reflexivity.
  destruct (Bins (Hist h)) as [| b0 [| b1 bins]].
  - reflexivity.
  - reflexivity.
  - cbn [List.length Nat.eqb negb andb Nat.leb].
    lia.
Qed.

Lemma Plot_bins_app (bins l1 l2 : list Bin) :
  forall (i : nat) (pts : list Point),
    Plot_bins h c trX trY bins i (l1 ++ l2) pts =
    Plot_bins h c trX trY bins (i + List.length l1) l2
      (Plot_bins h c trX trY bins i l1 pts).
Proof.
  induction l1 as [| b l1 IH]; intros i pts.
  - cbn [app Plot_bins List.length].
    rewrite Nat.add_0_r.
    reflexivity.
  - cbn [app Plot_bins List.length].
    rewrite IH.
    f_equal.
    lia.
Qed.

(** X12. Where the outline ends. With two bins or more its last point is
    on the lower end of the last bar, at the right edge of the last bin:
    the outline comes back down. With one bin it is the three points of
    the first round and ends at the top of the bar, at its right edge. *)
Theorem Plot_pts_end (front : list Bin) (last_bin : Bin) :
  Bins (Hist h) = front ++ [last_bin] ->
  let xmin := trX (XMin last_bin) in
  let xmax := trX (XMax last_bin) in
  let ymin := fst (yfct h c trY (SumW last_bin)) in
  let ymax := snd (yfct h c trY (SumW last_bin)) in
  match front with
  | [] =>
      Plot_pts h c trX trY =
      [{| X := xmin; Y := ymin |}; {| X := xmin; Y := ymax |};
       {| X := xmax; Y := ymax |}]
  | _ :: _ =>
      last (Plot_pts h c trX trY) {| X := xmin; Y := ymax |} =
      {| X := xmax; Y := ymin |}
  end.
Proof.
  intros Hbins xmin xmax ymin ymax.
  unfold Plot_pts.
  rewrite Hbins.
  destruct front as [| b front].
  - cbn [app Plot_bins].
    unfold Plot_bin.
    fold xmin xmax.
    subst ymin ymax.
    destruct (yfct h c trY (SumW last_bin)) as [y0 y1].
    reflexivity.
  - rewrite Plot_bins_app.
    cbn [Plot_bins].
    unfold Plot_bin at 1.
    fold xmin xmax.
    subst ymin ymax.
    destruct (yfct h c trY (SumW last_bin)) as [y0 y1].
    cbn [fst snd].
    replace (Z.eqb (Z.of_nat (0 + List.length (b :: front))) 0) with false
      by (symmetry; apply Z.eqb_neq; cbn [List.length]; lia).
    replace (Z.eqb (Z.of_nat (0 + List.length (b :: front)))
               (Z.of_nat (List.length ((b :: front) ++ [last_bin])) - 1))
      with true
      by (symmetry; apply Z.eqb_eq; rewrite length_app;
          cbn [List.length]; lia).
    rewrite !app_assoc.
    apply last_last.
Qed.

End Outline.

(** ** The glyph boxes *)

(** The loop appends the box of every bin it does not skip. *)
Lemma GlyphBoxes_loop_filter (h : H1D) (p : Plot_) :
  forall (left : list Bin) (bs : list GlyphBox),
    GlyphBoxes_loop h p left bs =
    bs ++ map (bin_box p)
            (filter (fun bin => negb (LogY h && f_eq (SumW bin) f_0)) left).
Proof.
  induction left as [| bin left IH]; intro bs.
  - cbn [GlyphBoxes_loop filter map].
    rewrite app_nil_r.
    reflexivity.
  - cbn [GlyphBoxes_loop filter].
    destruct (LogY h && f_eq (SumW bin) f_0)%bool.
    + cbn [negb].
      apply IH.
    + cbn [negb map].
      rewrite IH, <- app_assoc.
      reflexivity.
Qed.

(** X13. GlyphBoxes gives one box per bin, in the order of the bins, and
    under [LogY] leaves out the bins whose weight compares equal to 0.
    Every box has the same rectangle, from (0, 0) to (0, 5 points),
    whatever the bin: what the code first stores in the rectangle from the
    edges and the weight of the bin is overwritten. *)
Theorem GlyphBoxes_boxes (h : H1D) (p : Plot_) :
  let kept :=
    filter (fun bin => negb (LogY h && f_eq (SumW bin) f_0))
           (Bins (Hist h)) in
  map Box_Y (GlyphBoxes h p) = map (fun bin => Y_Norm p (SumW bin)) kept
  /\ Forall (fun box =>
               Rectangle_Min box =
                 {| X := vg_Length f_0; Y := vg_Length f_0 |}
               /\ Rectangle_Max box =
                 {| X := vg_Length f_0; Y := vg_Points_5 |})
            (GlyphBoxes h p)
  /\ (LogY h = false ->
      List.length (GlyphBoxes h p) = List.length (Bins (Hist h))).
Proof.
  intro kept.
  unfold GlyphBoxes.
  rewrite GlyphBoxes_loop_filter.
  cbn [app].
  fold kept.
  split; [| split].
  - rewrite map_map.
    reflexivity.
  - apply Forall_map.
    apply Forall_forall.
    intros bin _.
    split; reflexivity.
  - intro Hlog.
    rewrite length_map.
    subst kept.
    rewrite Hlog.
    cbn [andb negb].
    induction (Bins (Hist h)) as [| b l IH].
    + reflexivity.
    + cbn [filter List.length].
      rewrite IH.
      reflexivity.
Qed.

End HplotFacts.

(** * The statements on the fake transport *)

#[local] Existing Instance Fake.packages.
#[local] Existing Instance Fake.transport.

(** A path of three components: MkdirAll still sends one request, with the
    make-path option, and Mkdir one without. *)
Example MkdirAll_deep_path :
  wire (exec (MkdirAll 0 Fake.live "/a/b/c" 493%Z) Fake.world) =
    [Called 0 Fake.live
       (ReqMkdir {| mkdir.Path := "/a/b/c"; mkdir.Mode := 493%Z;
                    mkdir.Options := 1%Z |}) tt None]
  /\ wire (exec (Mkdir 0 Fake.live "/a/b/c" 493%Z) Fake.world) =
    [Called 0 Fake.live
       (ReqMkdir {| mkdir.Path := "/a/b/c"; mkdir.Mode := 493%Z;
                    mkdir.Options := 0%Z |}) tt None].
Proof. split; reflexivity. Qed.

(** A listing of two entries costs one exchange and keeps their order. *)
Example Dirlist_two_entries :
  eval (Dirlist 0 Fake.live "/") Fake.world =
    (Some [("a", 1%Z); ("b", 2%Z)], None)
  /\ List.length (wire (exec (Dirlist 0 Fake.live "/") Fake.world)) = 1.
Proof. split; reflexivity. Qed.

(** Open hands the mode and the options on as they came, and fills the
    File from the three fields of the response. *)
Example Open_on_the_fake :
  wire (exec (Open 0 Fake.live "/f" 420%Z 16%Z) Fake.world) =
    [Sent 0 Fake.live OpenSink (ReqOpen ("/f", 420%Z, 16%Z))
       (Fake.answer OpenSink) None]
  /\ eval (Open 0 Fake.live "/f" 420%Z 16%Z) Fake.world =
    (Some {| file_fs := 0; file_handle := 7%Z; file_compression := 0%Z;
             file_info := ("f", 3%Z) |}, None).
Proof. split; reflexivity. Qed.

(** The transport wrote the response value and then reported an error:
    nothing of what it wrote comes back. *)
Example written_response_is_dropped :
  Send_response Fake.world 0 Fake.broken StatDefaultSink
    (zero : stat.DefaultResponse)
    (ReqStat {| stat.Path := "/f"; stat.Options := 0%Z |}) =
    {| stat.EntryStat := ("f", 3%Z) |}
  /\ eval (Stat 0 Fake.broken "/f") Fake.world =
    (("", 0%Z), Some (ConnectionError "connection reset"))
  /\ eval (Dirlist 0 Fake.broken "/") Fake.world =
    (None, Some (ConnectionError "connection reset")).
Proof. repeat split; reflexivity. Qed.

(** Two facades over one client share it: the second call goes out from
    the state the first one left. *)
Example two_facades_share_the_client :
  let w1 := exec (Client_FS 0) Fake.world in
  let fs1 := eval (Client_FS 0) Fake.world in
  let w2 := exec (Client_FS 0) w1 in
  let fs2 := eval (Client_FS 0) w1 in
  let w3 := exec (RemoveFile fs1 Fake.live "/x") w2 in
  let w4 := exec (RemoveDir fs2 Fake.live "/d") w3 in
  fs1 <> fs2 /\ clients w3 0 = 1 /\ clients w4 0 = 2
  /\ List.length (wire w4) = 2.
Proof.
  cbn.
  repeat split; try reflexivity.
  discriminate.
Qed.

(** C4, as the claim words it, fails: with a canceled context Stat returns
    the zero [EntryStat] beside the error, and VirtualStat the zero
    [VirtualFSStat]; each is a default-valued instance returned together
    with a reported error. *)
Lemma default_value_beside_error :
  eval (Stat 0 Fake.canceled "/a") Fake.world = (zero, Some context_Canceled)
  /\ eval (VirtualStat 0 Fake.canceled "/a") Fake.world =
       (zero, Some context_Canceled)
  /\ default_valued_beside_error
       (eval (invoke 0 Fake.canceled (OpStat "/a")) Fake.world)
  /\ default_valued_beside_error
       (eval (invoke 0 Fake.canceled (OpVirtualStat "/a")) Fake.world).
Proof. repeat split; reflexivity. Qed.

(** C5 at a canceled context: the one exchange Open makes reports the
    cancellation, and Open returns it with no File. *)
Lemma cancellation_returns_error_only_witness :
  returned_error (eval (invoke 0 Fake.canceled (OpOpen "/a" 420%Z 16%Z))
                       Fake.world) = Some context_Canceled
  /\ carries_nothing (eval (invoke 0 Fake.canceled (OpOpen "/a" 420%Z 16%Z))
                           Fake.world).
Proof.
  destruct (cancellation_returns_error_only 0 Fake.canceled
              (OpOpen "/a" 420%Z 16%Z) Fake.world) as (x & Hw & Hx).
  apply (Hx context_Canceled).
  - cbn in Hw.
    injection Hw as <-.
    reflexivity.
  - reflexivity.
Defined.

(** C10 at a canceled context: the four error-branch values. *)
Lemma error_branch_values_witness :
  eval (Dirlist 0 Fake.canceled "/a") Fake.world =
    (None, Some context_Canceled)
  /\ eval (Open 0 Fake.canceled "/a" 420%Z 16%Z) Fake.world =
    (None, Some context_Canceled)
  /\ eval (Stat 0 Fake.canceled "/a") Fake.world =
    (zero, Some context_Canceled)
  /\ eval (VirtualStat 0 Fake.canceled "/a") Fake.world =
    (zero, Some context_Canceled).
Proof.
  destruct (error_branch_values 0 Fake.canceled "/a" 420%Z 16%Z Fake.world
              context_Canceled) as (Hd & Ho & Hs & Hv).
  split; [| split; [| split]].
  - apply Hd. reflexivity.
  - apply Ho. reflexivity.
  - apply Hs. reflexivity.
  - apply Hv. reflexivity.
Defined.

(** C9 on two worlds that agree on the receiver and on the state behind
    its client, and differ in the other objects they hold: Stat returns
    the same in both. *)
Lemma fileSystem_is_never_written_witness :
  let w := Fake.world in
  let w' := exec (Client_FS 5) Fake.world in
  eval (invoke 0 Fake.live (OpStat "/a")) w =
  eval (invoke 0 Fake.live (OpStat "/a")) w'.
Proof.
  intros w w'.
  apply (fileSystem_is_never_written 0 Fake.live (OpStat "/a") w w' 0
           {| c := 0 |}).
  - reflexivity.
  - reflexivity.
Defined.

(** * The further statements on concrete inputs *)

(** X2 on the fake transport: the facades at addresses 0 and 1 hold the
    client at address 0. *)
Lemma facades_on_one_client_agree_witness :
  exec (invoke 0 Fake.live (OpStat "/a")) Fake.world =
  exec (invoke 1 Fake.live (OpStat "/a")) Fake.world
  /\ eval (invoke 0 Fake.live (OpStat "/a")) Fake.world =
     eval (invoke 1 Fake.live (OpStat "/a")) Fake.world.
Proof.
  apply (facades_on_one_client_agree 0 1 Fake.live (OpStat "/a") Fake.world).
  reflexivity.
Defined.

Section DecodeVectorOnBytes.

Import rootio.
Import SampleBytes.

(** X3: the two values land in cells 0 and 1, cell 2 and the length stay. *)
Lemma DecodeVector_decodes_front_witness :
  exists d : Slice Z,
    DecodeVector (header ++ two ++ values ++ [Byte.x09]) dst =
      Return 2 None [Byte.x09] d
    /\ len d = 1
    /\ nth_error (array d) 1 = Some (-2)%Z
    /\ nth_error (array d) 2 = Some 7%Z.
Proof.
  destruct (DecodeVector_decodes_front header two values [Byte.x09] dst)
    as (d & Hrun & Hlen & Hfront & Hback).
  - reflexivity.
  - reflexivity.
  - cbn. lia.
  - reflexivity.
  - exists d.
    split; [exact Hrun |].
    split; [exact Hlen |].
    split.
    + rewrite (Hfront 1) by (cbn; lia).
      reflexivity.
    + rewrite (Hback 2) by (cbn; lia).
      reflexivity.
Defined.

(** X4: three bytes are not even a header. *)
Lemma DecodeVector_no_count_witness :
  DecodeVector [Byte.x40; Byte.x00; Byte.x00] dst =
  Return (-1) (Some io_EOF) [] dst.
Proof.
  apply (DecodeVector_no_count [Byte.x40; Byte.x00; Byte.x00] dst).
  cbn. lia.
Defined.

(** X5: a count of two and five bytes behind it. *)
Lemma DecodeVector_truncated_witness :
  DecodeVector (header ++ two ++ firstn 5 values) dst =
  Return (-1) (Some io_ErrUnexpectedEOF) [] dst.
Proof.
  apply (DecodeVector_truncated header two (firstn 5 values) dst).
  - reflexivity.
  - reflexivity.
  - cbn. lia.
  - cbn. lia.
Defined.

(** X6: a count of four for a capacity of three. *)
Lemma DecodeVector_panics_iff_witness :
  DecodeVector (header ++ four ++ values) dst = Panic values.
Proof.
  apply (DecodeVector_panics_iff (header ++ four ++ values) dst values).
  split; [cbn; lia |].
  split; [right; cbn; lia | reflexivity].
Defined.

(** X7 on the run of X3. *)
Lemma DecodeVector_count_or_error_witness :
  (0 <= 2 <= Z.of_nat (cap dst))%Z
  /\ List.length (header ++ two ++ values ++ [Byte.x09]) =
     10 + 4 * Z.to_nat 2 + List.length [Byte.x09]
  /\ len {| array := [5; -2; 7]%Z; len := 1 |} = len dst
  /\ cap {| array := [5; -2; 7]%Z; len := 1 |} = cap dst
  /\ skipn (Z.to_nat 2) [5; -2; 7]%Z = skipn (Z.to_nat 2) (array dst).
Proof.
  exact (DecodeVector_count_or_error
           (header ++ two ++ values ++ [Byte.x09]) [Byte.x09] dst
           {| array := [5; -2; 7]%Z; len := 1 |} 2 None eq_refl).
Defined.

(** X8: the same vector behind a header of zeros. *)
Lemma DecodeVector_ignores_header_witness :
  DecodeVector (repeat Byte.x00 6 ++ two ++ values) dst =
  DecodeVector (header ++ two ++ values) dst.
Proof.
  apply (DecodeVector_ignores_header (repeat Byte.x00 6) header
           (two ++ values) dst).
  - reflexivity.
  - reflexivity.
Defined.

(** X9: the values -1 and 5, written and read back. *)
Lemma DecodeVector_round_trip_int32_witness :
  DecodeVector (encode_int32_vector header [-1; 5]%Z ++ [Byte.x09]) dst =
  Return 2 None [Byte.x09] {| array := [-1; 5; 7]%Z; len := 1 |}.
Proof.
  apply (DecodeVector_round_trip_int32 header [Byte.x09] [-1; 5]%Z dst).
  - reflexivity.
  - repeat constructor; cbn; lia.
  - cbn. lia.
  - cbn. lia.
Defined.

End DecodeVectorOnBytes.

Section HistogramOnRationals.

Import hplot.

#[local] Existing Instance FakePlot.env.

(** X12 on the three bins of the fake histogram: the outline ends at the
    right edge of the last bin, on the baseline. *)
Lemma Plot_pts_end_witness :
  last (Plot_pts (FakePlot.h1d false 0%Z) FakePlot.canvas
          (fun x => x) (fun y => y))
       {| X := FakePlot.q 2; Y := FakePlot.q 5 |} =
  {| X := FakePlot.q 3; Y := FakePlot.q 0 |}.
Proof.
  apply (Plot_pts_end (FakePlot.h1d false 0%Z) FakePlot.canvas
           (fun x => x) (fun y => y)
           [FakePlot.bin 0 2; FakePlot.bin 1 0] (FakePlot.bin 2 5)).
  reflexivity.
Defined.

(** X13 on the fake histogram without [LogY]: three bins, three boxes. *)
Lemma GlyphBoxes_boxes_witness :
  List.length (GlyphBoxes (FakePlot.h1d false 0%Z) tt) = 3.
Proof.
  destruct (GlyphBoxes_boxes (FakePlot.h1d false 0%Z) tt) as (_ & _ & Hlen).
  apply Hlen.
  reflexivity.
Defined.

End HistogramOnRationals.
